(** * Food Ordering API: a shallow embedding of [main.py] and [schemas.py]

    The request handlers of [main.py] are embedded as functions over an
    explicit model of the document store they talk to.  Python values are
    embedded as follows:

    - [float] is IEEE 754 binary64, via the executable specification
      [SpecFloat] of the Standard Library (round to nearest, ties to even);
    - [int] is [Z]; [str] is the [string] of its UTF-8 encoding; [dict] is
      [gmap string _];
    - a raised exception is the [Raise] outcome of a [result];
    - the module-level [db] imported from [database.py] is a handle
      [option Database] ([None] when the store was never configured),
      passed to every handler and returned with its outcome. *)

From Stdlib Require Import ZArith NArith String Ascii List Lia.
From Stdlib Require Import Strings.Byte.
From Stdlib Require Import Floats.SpecFloat.
From stdpp Require Import base option list gmap strings fin_maps sorting.

#[local] Set Warnings "-register-all".
#[local] Open Scope string_scope.
#[local] Open Scope list_scope.
#[local] Open Scope Z_scope.

(** ** Python floats *)

Module Float.

Abbreviation float := spec_float.

Definition prec : Z := 53.
Definition emax : Z := 1024.

Definition add : float → float → float := SFadd prec emax.
Definition mul : float → float → float := SFmul prec emax.
Definition div : float → float → float := SFdiv prec emax.
Definition ltb : float → float → bool := SFltb.
Definition leb : float → float → bool := SFleb.

(** The nearest float of an integer (ties to even); an infinity when the
    integer is out of range. *)
Definition of_Z (z : Z) : float := binary_normalize prec emax z 0 false.

(** The float denoted by the decimal literal [n / d], for [n] and [d]
    small enough to be floats themselves: [13.99] is [lit 1399 100]. *)
Definition lit (n d : Z) : float := div (of_Z n) (of_Z d).

Definition zero : float := S754_zero false.


Definition is_finite (x : float) : bool :=
  match x with S754_zero _ | S754_finite _ _ _ => true | _ => false end.

(** Nearest integer to [n / d], halfway cases to the even neighbour
    ([0 ≤ n], [0 < d]). *)
Definition div_half_even (n d : Z) : Z :=
  let q := n / d in
  match 2 * (n mod d) ?= d with
  | Lt => q
  | Gt => q + 1
  | Eq => if Z.even q then q else q + 1
  end.

(** [round(x, ndigits)] for a float [x] and [ndigits ≥ 0]: the exact value
    of [x] is rounded to [ndigits] decimal places, halfway cases to even,
    and the resulting decimal is read back as the nearest float.
    Zeros, infinities and NaN round to themselves. *)
Definition round (x : float) (ndigits : N) : float :=
  match x with
  | S754_finite s m e =>
      let p := 10 ^ Z.of_N ndigits in
      let q := match e with
               | Zneg k => div_half_even (Zpos m * p) (2 ^ Zpos k)
               | _ => Zpos m * 2 ^ e * p
               end in
      match q with
      | Zpos qm => div (S754_finite s qm 0) (S754_finite false (Z.to_pos p) 0)
      | _ => S754_zero s
      end
  | _ => x
  end.

(** Left-to-right sum starting from [0.0], as a [total += term] loop
    computes it. *)
Definition sum (l : list float) : float := foldl add zero l.

End Float.
Import Float(float).

(** ** Strings, bytes and hexadecimal text

    A [str] is embedded as the [string] of its UTF-8 encoding: its
    characters are the code points that the encoding spells, one to four
    bytes each. *)

(** What the handlers use of the interpreter without its being in their
    source: the reading of a [str] as a [float] ([None] is its
    [ValueError]), and whether a character above ASCII, given by its code
    point, is printable ([str.isprintable], from the Unicode tables). *)
Record Interpreter := {
  float_of_str : string → option float;
  isprintable : N → bool;
}.

(** A byte that continues a character begun before. *)
Definition is_continuation (c : ascii) : bool :=
  let n := N_of_ascii c in (128 <=? n)%N && (n <? 192)%N.

(** [len(s)]: the number of characters. *)
Fixpoint len (s : string) : nat :=
  match s with
  | "" => 0%nat
  | String c s' => if is_continuation c then len s' else S (len s')
  end.

(** [s[:n]]: the first [n] characters. *)
Fixpoint str_prefix (n : nat) (s : string) : string :=
  match s with
  | "" => ""
  | String c s' =>
      if is_continuation c then String c (str_prefix n s')
      else
        match n with
        | O => ""
        | S n' => String c (str_prefix n' s')
        end
  end.

Definition hex_digit (n : N) : ascii :=
  match n with
  | 0 => "0" | 1 => "1" | 2 => "2" | 3 => "3" | 4 => "4" | 5 => "5"
  | 6 => "6" | 7 => "7" | 8 => "8" | 9 => "9" | 10 => "a" | 11 => "b"
  | 12 => "c" | 13 => "d" | 14 => "e" | _ => "f"
  end%N%char.

Definition hex_value (c : ascii) : option N :=
  let n := N_of_ascii c in
  if (48 <=? n)%N && (n <=? 57)%N then Some (n - 48)%N
  else if (97 <=? n)%N && (n <=? 102)%N then Some (n - 87)%N
  else if (65 <=? n)%N && (n <=? 70)%N then Some (n - 55)%N
  else None.

(** ASCII whitespace: tab, line feed, vertical tab, form feed, carriage
    return and space. *)
Definition is_space (c : ascii) : bool :=
  let n := N_of_ascii c in ((9 <=? n)%N && (n <=? 13)%N) || (n =? 32)%N.

(** [binascii.hexlify(b).decode()]: two lowercase digits per byte. *)
Fixpoint hexlify (b : list byte) : string :=
  match b with
  | [] => ""
  | x :: b' =>
      let n := Byte.to_N x in
      String (hex_digit (n / 16)) (String (hex_digit (n mod 16)) (hexlify b'))
  end.

(** [bytes.fromhex(s)]: two hexadecimal digits per byte, ASCII whitespace
    before a pair and at the end skipped; [None] stands for the
    [ValueError] raised otherwise. *)
Fixpoint fromhex (s : string) : option (list byte) :=
  match s with
  | "" => Some []
  | String c1 s1 =>
      if is_space c1 then fromhex s1
      else
        match s1 with
        | String c2 s2 =>
            hi ← hex_value c1; lo ← hex_value c2;
            x ← Byte.of_N (16 * hi + lo); b ← fromhex s2;
            Some (x :: b)
        | "" => None
        end
  end.

Fixpoint str_has (c : ascii) (s : string) : bool :=
  match s with
  | "" => false
  | String c' s' => if decide (c = c') then true else str_has c s'
  end.

Definition hex2 (n : N) : string :=
  String (hex_digit (n / 16)) (String (hex_digit (n mod 16)) "").
Definition hex4 (n : N) : string := hex2 (n / 256) +:+ hex2 (n mod 256).
Definition hex8 (n : N) : string := hex4 (n / 65536) +:+ hex4 (n mod 65536).

(** The escape [repr] writes for a character it does not print. *)
Definition escape (cp : N) : string :=
  if (cp <? 256)%N then "\x" +:+ hex2 cp
  else if (cp <? 65536)%N then "\u" +:+ hex4 cp
  else "\U" +:+ hex8 cp.

(** The double quote character. *)
Definition dquote : ascii := ascii_of_nat 34.

Section Repr.

Variable py : Interpreter.

(** A character above ASCII, given by its code point and its bytes. *)
Definition repr_wide (cp : N) (bytes : string) : string :=
  if isprintable py cp then bytes else escape cp.

(** A character of ASCII. *)
Definition repr_ascii (quote c : ascii) : string :=
  let n := N_of_ascii c in
  if decide (c = quote) then String "\" (String c "")
  else if decide (c = "\"%char) then "\\"
  else if (n =? 10)%N then "\n"
  else if (n =? 13)%N then "\r"
  else if (n =? 9)%N then "\t"
  else if (n <? 32)%N || (n =? 127)%N then escape n
  else String c "".

Fixpoint repr_chars (quote : ascii) (s : string) : string :=
  match s with
  | "" => ""
  | String c1 s1 =>
      let n1 := N_of_ascii c1 in
      if (n1 <? 128)%N then repr_ascii quote c1 +:+ repr_chars quote s1
      else if (n1 <? 224)%N then
        match s1 with
        | String c2 s2 =>
            let n2 := N_of_ascii c2 in
            repr_wide ((n1 - 192) * 64 + (n2 - 128)) (String c1 (String c2 ""))
              +:+ repr_chars quote s2
        | _ => s
        end
      else if (n1 <? 240)%N then
        match s1 with
        | String c2 (String c3 s3) =>
            let n2 := N_of_ascii c2 in
            let n3 := N_of_ascii c3 in
            repr_wide (((n1 - 224) * 64 + (n2 - 128)) * 64 + (n3 - 128))
                      (String c1 (String c2 (String c3 "")))
              +:+ repr_chars quote s3
        | _ => s
        end
      else
        match s1 with
        | String c2 (String c3 (String c4 s4)) =>
            let n2 := N_of_ascii c2 in
            let n3 := N_of_ascii c3 in
            let n4 := N_of_ascii c4 in
            repr_wide ((((n1 - 240) * 64 + (n2 - 128)) * 64 + (n3 - 128)) * 64 + (n4 - 128))
                      (String c1 (String c2 (String c3 (String c4 ""))))
              +:+ repr_chars quote s4
        | _ => s
        end
  end%N.

(** [repr(s)] of a [str]: single quotes unless the text has a single and no
    double quote; backslash, the quote, control characters and the
    characters that are not printable escaped. *)
Definition repr (s : string) : string :=
  let quote : ascii :=
    if str_has "'" s && negb (str_has dquote s) then dquote else "'"%char in
  String quote (repr_chars quote s) +:+ String quote "".

End Repr.

(** ** Exceptions and outcomes *)

Inductive exn :=
| InvalidId (msg : string)        (* bson.errors.InvalidId *)
| TypeError (msg : string)
| ValueError (msg : string)
| OverflowError (msg : string)
| PyMongoError (msg : string).    (* a failure reported by the store client *)

(** [str(e)] *)
Definition str_exn (e : exn) : string :=
  match e with
  | InvalidId msg | TypeError msg | ValueError msg | OverflowError msg
  | PyMongoError msg => msg
  end.

(** The exception of bson's [_raise_invalid_id(oid)] *)
Definition invalid_id (py : Interpreter) (oid : string) : exn :=
  InvalidId (repr py oid +:+
    " is not a valid ObjectId, it must be a 12-byte input or a 24-character hex string").

Inductive result (A : Type) :=
| Ok (a : A)
| Raise (e : exn).
Arguments Ok {A} a.
Arguments Raise {A} e.

#[global] Instance result_ret : MRet result := λ A, Ok.
#[global] Instance result_bind : MBind result := λ A B f r,
  match r with Ok a => f a | Raise e => Raise e end.

(** What a route handler hands to the framework: a body to serialise, or
    the [HTTPException] it raised. *)
Inductive http (A : Type) :=
| Respond (body : A)
| HTTPException (status_code : Z) (detail : string).
Arguments Respond {A} body.
Arguments HTTPException {A} status_code detail.

(** [try: ... except Exception as e: raise HTTPException(status_code=500, detail=str(e))] *)
Definition or_500 {A} (r : result A) : http A :=
  match r with
  | Ok a => Respond a
  | Raise e => HTTPException 500 (str_exn e)
  end.

(** Comprehension over a list with a body that may raise: the first
    exception ends it. *)
Fixpoint traverse {A B} (f : A → result B) (l : list A) : result (list B) :=
  match l with
  | [] => Ok []
  | a :: l' => b ← f a; bs ← traverse f l'; Ok (b :: bs)
  end.

(** ** Store identities *)

Record ObjectId := { binary : list byte }.

#[global] Instance byte_eq_dec : EqDecision byte := Byte.byte_eq_dec.
#[global] Instance ObjectId_eq_dec : EqDecision ObjectId.
Proof. solve_decision. Defined.

(** [str(oid)] *)
Definition ObjectId_str (o : ObjectId) : string := hexlify (binary o).

(** What [ObjectId(s)] makes of a [str]: the bytes that a text of 24
    characters spells in hexadecimal.  Whitespace counts among the 24
    characters and spells nothing, so the identity can have fewer than
    twelve bytes. *)
Definition ObjectId_parse (s : string) : option ObjectId :=
  if decide (len s = 24%nat) then
    match fromhex s with
    | Some b => Some {| binary := b |}
    | None => None
    end
  else None.

(** [ObjectId(s)] for a [str] *)
Definition ObjectId_of_str (py : Interpreter) (s : string) : result ObjectId :=
  match ObjectId_parse s with
  | Some o => Ok o
  | None => Raise (invalid_id py s)
  end.

(** The bytes read as one big-endian number: the store compares two
    identities of the same length bytewise, which is this order. *)
Definition ObjectId_num (o : ObjectId) : N :=
  foldl (λ acc x, 256 * acc + Byte.to_N x)%N 0%N (binary o).

Fixpoint be_bytes (len : nat) (n : N) : list byte :=
  match len with
  | O => []
  | S len' =>
      be_bytes len' (n / 256) ++
      [default Byte.x00 (Byte.of_N (n mod 256))]
  end.

(** ** Python values and documents *)

Inductive value :=
| VNone
| VBool (b : bool)
| VInt (z : Z)
| VFloat (f : float)
| VStr (s : string)
| VOid (o : ObjectId)
| VList (l : list value)
| VDict (d : gmap string value).

Abbreviation dict := (gmap string value).

(** An [int] fits the store's wire format when it is a signed 64-bit
    integer; the client raises [OverflowError] otherwise. *)
Fixpoint bson_encodable (v : value) : bool :=
  match v with
  | VInt z => (- 2 ^ 63 <=? z) && (z <? 2 ^ 63)
  | VList l => forallb bson_encodable l
  | VDict d => map_fold (λ _ x ok, bson_encodable x && ok) true d
  | _ => true
  end.

(** ** The document store

    The store is an external collaborator; [database.py], which creates the
    handle [db], is not part of the embedded sources.  The model keeps what
    the handlers can observe of it: named collections of documents in
    insertion order, the identities assigned on insertion, and whether the
    server answers at all.

    Every document of this service is inserted without an ["_id"], so the
    client gives it a fresh [ObjectId]: a stored document is that identity
    together with the fields inserted. *)

Record stored := { _id : ObjectId; fields : dict }.

(** The [dict] the client returns for a stored document. *)
Definition document (d : stored) : dict := <["_id" := VOid (_id d)]> (fields d).

Record Database := {
  name : string;                           (* [db.name] *)
  collections : gmap string (list stored);
  oid_counter : N;                         (* state of the [ObjectId()] generator *)
  fault : option string;                   (* [Some msg]: every round trip to the
                                              server raises, with text [msg] *)
}.

(** [db[coll]]: collections exist lazily, an unknown one is empty. *)
Definition collection (db : Database) (coll : string) : list stored :=
  default [] (collections db !! coll).

Definition set_collection (coll : string) (docs : list stored) (db : Database) : Database :=
  {| name := name db; collections := <[coll := docs]> (collections db);
     oid_counter := oid_counter db; fault := fault db |}.

(** State and exceptions threaded through a block of statements. *)
Definition ST (S A : Type) : Type := S → result A * S.

#[global] Instance ST_ret {S} : MRet (ST S) := λ A a s, (Ok a, s).
#[global] Instance ST_bind {S} : MBind (ST S) := λ A B f m s,
  match m s with
  | (Ok a, s') => f a s'
  | (Raise e, s') => (Raise e, s')
  end.

Definition lift {S A} (r : result A) : ST S A := λ s, (r, s).
Definition get {S} : ST S S := λ s, (Ok s, s).
Definition put {S} (s : S) : ST S () := λ _, (Ok (), s).

(** [try: body except Exception as e: handler] *)
Definition try_except {S A} (body : ST S A) (handler : exn → ST S A) : ST S A := λ s,
  match body s with
  | (Raise e, s') => handler e s'
  | ok => ok
  end.

Module Store.

(** [ObjectId()]: twelve bytes from the generator, which then advances. *)
Definition new_ObjectId : ST Database ObjectId := λ db,
  (Ok {| binary := be_bytes 12 (oid_counter db) |},
   {| name := name db; collections := collections db;
      oid_counter := (oid_counter db + 1)%N; fault := fault db |}).

(** A round trip to the server. *)
Definition round_trip : ST Database () := λ db,
  match fault db with
  | Some msg => (Raise (PyMongoError msg), db)
  | None => (Ok (), db)
  end.

(** Writing a value in the wire format. *)
Definition encode (v : value) : ST Database () :=
  lift (if bson_encodable v then Ok ()
        else Raise (OverflowError "MongoDB can only handle up to 8-byte ints")).

Definition append (coll : string) (ds : list stored) : ST Database () :=
  db ← get;
  put (set_collection coll (collection db coll ++ ds) db).

(** [db[coll].insert_one(doc).inserted_id], for a [doc] without ["_id"] *)
Definition insert_one (coll : string) (doc : dict) : ST Database ObjectId :=
  oid ← new_ObjectId;
  _ ← round_trip;
  _ ← encode (VDict doc);
  _ ← append coll [{| _id := oid; fields := doc |}];
  mret oid.

Fixpoint assign_ids (docs : list dict) : ST Database (list stored) :=
  match docs with
  | [] => mret []
  | doc :: docs' =>
      oid ← new_ObjectId;
      ds ← assign_ids docs';
      mret ({| _id := oid; fields := doc |} :: ds)
  end.

(** [db[coll].insert_many(docs)], for [docs] without ["_id"] *)
Definition insert_many (coll : string) (docs : list dict) : ST Database () :=
  ds ← assign_ids docs;
  _ ← round_trip;
  _ ← encode (VList (VDict <$> docs));
  append coll ds.

(** [db[coll].count_documents({})] *)
Definition count_documents (coll : string) : ST Database Z :=
  _ ← round_trip;
  db ← get;
  mret (Z.of_nat (length (collection db coll))).

(** [db.list_collection_names()] *)
Definition list_collection_names : ST Database (list string) :=
  _ ← round_trip;
  db ← get;
  mret (map fst (map_to_list (collections db))).

(** The filters this service sends. *)
Inductive query :=
| all                                         (* [{}] *)
| field_is (field : string) (s : string)      (* [{field: s}] for a [str] *)
| id_in (ids : list ObjectId).                (* [{"_id": {"$in": ids}}] *)

(** The server's reading of a filter.  An equality on a field also
    matches a document in which the field is an array with the value among
    its elements. *)
Definition matches (q : query) (d : stored) : bool :=
  let is_str s v := match v with VStr s' => bool_decide (s' = s) | _ => false end in
  match q with
  | all => true
  | field_is k s =>
      match fields d !! k with
      | Some (VStr s') => bool_decide (s' = s)
      | Some (VList l) => existsb (is_str s) l
      | _ => false
      end
  | id_in ids => bool_decide (_id d ∈ ids)
  end.

(** A cursor: built by [find], refined by [sort] and [limit], run when
    the handler iterates it. *)
Record Cursor := {
  cur_collection : string;
  cur_query : query;
  cur_sort : option Z;       (* direction of a sort on ["_id"] *)
  cur_limit : Z;
}.

(** [db[coll].find(q)] *)
Definition find (coll : string) (q : query) : Cursor :=
  {| cur_collection := coll; cur_query := q; cur_sort := None; cur_limit := 0 |}.

(** [cursor.sort("_id", direction)] *)
Definition sort (direction : Z) (c : Cursor) : Cursor :=
  {| cur_collection := cur_collection c; cur_query := cur_query c;
     cur_sort := Some direction; cur_limit := cur_limit c |}.

(** [cursor.limit(n)] *)
Definition limit (n : Z) (c : Cursor) : Cursor :=
  {| cur_collection := cur_collection c; cur_query := cur_query c;
     cur_sort := cur_sort c; cur_limit := n |}.

(** Identity order, ascending and descending. *)
Definition id_le (a b : stored) : Prop :=
  (ObjectId_num (_id a) ≤ ObjectId_num (_id b))%N.
Definition id_ge (a b : stored) : Prop := id_le b a.

#[global] Instance id_le_dec a b : Decision (id_le a b).
Proof. unfold id_le. apply _. Defined.
#[global] Instance id_ge_dec a b : Decision (id_ge a b).
Proof. unfold id_ge. apply _. Defined.

Definition sorted (direction : Z) (docs : list stored) : list stored :=
  if decide (direction < 0) then merge_sort id_ge docs else merge_sort id_le docs.

(** What the server makes of the limit it is sent: [0] is no limit, and a
    negative limit asks for that many documents in a single batch. *)
Definition limited (n : Z) (docs : list stored) : list stored :=
  if decide (n = 0) then docs else take (Z.to_nat (Z.abs n)) docs.

(** Iterating the cursor: the query is sent (its limit must fit the wire
    format) and the matching documents come back. *)
Definition fetch (c : Cursor) : ST Database (list stored) :=
  _ ← round_trip;
  _ ← encode (VInt (Z.abs (cur_limit c)));
  db ← get;
  let docs := filter (λ d, matches (cur_query c) d = true)
                     (collection db (cur_collection c)) in
  let docs := match cur_sort c with
              | Some direction => sorted direction docs
              | None => docs
              end in
  mret (limited (cur_limit c) docs).

End Store.

(** ** [main.py] *)

(** A [dict] display [{k1: v1, k2: v2, ...}]. *)
Definition dict_of (items : list (string * value)) : dict :=
  foldl (λ d kv, <[kv.1 := kv.2]> d) ∅ items.

Definition serialize_doc (doc : dict) : dict :=
  if decide (doc = ∅) then doc
  else
    let d := doc in
    match d !! "_id" with
    | Some (VOid _id) => delete "_id" (<["id" := VStr (ObjectId_str _id)]> d)
    | _ => d
    end.

(** The frame shared by the store-backed routes:
    [try: ... db[...] ... except Exception as e: raise HTTPException(500, str(e))].
    In each of them the first operation that can raise is the subscript
    [db[...]], a [TypeError] when [db] is [None]. *)
Definition handler {A} (body : ST Database A) (db : option Database)
  : http A * option Database :=
  match db with
  | None => (or_500 (Raise (TypeError "'NoneType' object is not subscriptable")), None)
  | Some d => let '(r, d') := body d in (or_500 r, Some d')
  end.

Definition spice_route : dict :=
  dict_of [("name", VStr "Spice Route");
           ("cuisine", VStr "Indian");
           ("image_url", VStr "https://images.unsplash.com/photo-1544025162-d76694265947");
           ("rating", VFloat (Float.lit 46 10));
           ("delivery_time_min", VInt 30)].

Definition pasta_palace : dict :=
  dict_of [("name", VStr "Pasta Palace");
           ("cuisine", VStr "Italian");
           ("image_url", VStr "https://images.unsplash.com/photo-1521389508051-d7ffb5dc8bbf");
           ("rating", VFloat (Float.lit 44 10));
           ("delivery_time_min", VInt 25)].

Definition menu_item (restaurant_id name description : string) (price : float)
    (is_veg : bool) (spicy_level : Z) (image_url : string) : dict :=
  dict_of [("restaurant_id", VStr restaurant_id); ("name", VStr name);
           ("description", VStr description); ("price", VFloat price);
           ("is_veg", VBool is_veg); ("spicy_level", VInt spicy_level);
           ("image_url", VStr image_url)].

Definition seed_menu (r1_id r2_id : ObjectId) : list dict :=
  [ menu_item (ObjectId_str r1_id) "Butter Chicken" "Creamy tomato gravy"
      (Float.lit 1399 100) false 1
      "https://images.unsplash.com/photo-1604909052743-87e9f2fba5a2";
    menu_item (ObjectId_str r1_id) "Paneer Tikka" "Grilled cottage cheese"
      (Float.lit 105 10) true 1
      "https://images.unsplash.com/photo-1601050690597-8df8f1864d84";
    menu_item (ObjectId_str r2_id) "Margherita Pizza" "Classic with basil"
      (Float.lit 110 10) true 0
      "https://images.unsplash.com/photo-1548365328-9f547fb09530";
    menu_item (ObjectId_str r2_id) "Pesto Pasta" "Fresh basil pesto"
      (Float.lit 1275 100) true 0
      "https://images.unsplash.com/photo-1521389508051-d7ffb5dc8bbf" ].

Definition seed_body : ST Database dict :=
  n ← Store.count_documents "restaurant";
  _ ← (if decide (n = 0) then
         r1_id ← Store.insert_one "restaurant" spice_route;
         r2_id ← Store.insert_one "restaurant" pasta_palace;
         Store.insert_many "menuitem" (seed_menu r1_id r2_id)
       else mret ());
  mret (dict_of [("status", VStr "ok")]).

Definition seed : option Database → http dict * option Database :=
  handler seed_body.

Definition read_root : dict :=
  dict_of [("message", VStr "Food Ordering API is running")].

Definition list_restaurants : option Database → http (list dict) * option Database :=
  handler (docs ← Store.fetch (Store.limit 50 (Store.find "restaurant" Store.all));
           mret (serialize_doc ∘ document <$> docs)).

Definition get_menu (restaurant_id : string)
  : option Database → http (list dict) * option Database :=
  handler (items ← Store.fetch (Store.limit 200
                     (Store.find "menuitem" (Store.field_is "restaurant_id" restaurant_id)));
           mret (serialize_doc ∘ document <$> items)).

Record CartItem := { menuitem_id : string; quantity : Z }.

Record PlaceOrderRequest := {
  restaurant_id : string;
  items : list CartItem;
  customer_name : string;
  address : string;
  phone : string;
  notes : option string;
}.

(** [float * int]: the integer is converted first. *)
Definition float_of_int (z : Z) : result float :=
  let f := Float.of_Z z in
  if Float.is_finite f then Ok f
  else Raise (OverflowError "int too large to convert to float").

Section PlaceOrder.

Variable py : Interpreter.

(** The built-in [float(v)] *)
Definition py_float (v : value) : result float :=
  match v with
  | VFloat f => Ok f
  | VInt z => float_of_int z
  | VBool b => Ok (Float.of_Z (if b then 1 else 0))
  | VStr s =>
      match float_of_str py s with
      | Some f => Ok f
      | None => Raise (ValueError ("could not convert string to float: " +:+ repr py s))
      end
  | VNone => Raise (TypeError "float() argument must be a string or a real number, not 'NoneType'")
  | VOid _ => Raise (TypeError "float() argument must be a string or a real number, not 'ObjectId'")
  | VList _ => Raise (TypeError "float() argument must be a string or a real number, not 'list'")
  | VDict _ => Raise (TypeError "float() argument must be a string or a real number, not 'dict'")
  end.

(** [{str(d["_id"]): float(d.get("price", 0)) for d in menu_docs}],
    the comprehension continued from the entries [acc]. *)
Fixpoint price_map_of (menu_docs : list stored) (acc : gmap string float)
  : result (gmap string float) :=
  match menu_docs with
  | [] => Ok acc
  | d :: menu_docs' =>
      price ← py_float (default (VInt 0) (fields d !! "price"));
      price_map_of menu_docs' (<[ObjectId_str (_id d) := price]> acc)
  end.

Definition item_dict (menuitem_id : string) (quantity : Z) (price : float) : value :=
  VDict (dict_of [("menuitem_id", VStr menuitem_id); ("quantity", VInt quantity);
                  ("price", VFloat price)]).

(** The [for i in payload.items] loop, from the current [total] and
    [items]. *)
Fixpoint order_loop (price_map : gmap string float) (its : list CartItem)
    (total : float) (items : list value) : result (float * list value) :=
  match its with
  | [] => Ok (total, items)
  | i :: its' =>
      let price := default Float.zero (price_map !! menuitem_id i) in
      let items := items ++ [item_dict (menuitem_id i) (quantity i) price] in
      q ← float_of_int (quantity i);
      order_loop price_map its' (Float.add total (Float.mul price q)) items
  end.

Definition opt_str (s : option string) : value :=
  match s with Some s => VStr s | None => VNone end.

Definition order_doc (payload : PlaceOrderRequest) (items : list value) (total : float) : dict :=
  dict_of [("restaurant_id", VStr (restaurant_id payload));
           ("items", VList items);
           ("customer_name", VStr (customer_name payload));
           ("address", VStr (address payload));
           ("phone", VStr (phone payload));
           ("notes", opt_str (notes payload));
           ("status", VStr "placed");
           ("total", VFloat (Float.round total 2))].

Definition place_order_body (payload : PlaceOrderRequest) : ST Database dict :=
  let menu_ids := menuitem_id <$> items payload in
  oids ← lift (traverse (ObjectId_of_str py) menu_ids);
  menu_docs ← Store.fetch (Store.find "menuitem" (Store.id_in oids));
  price_map ← lift (price_map_of menu_docs ∅);
  '(total, items) ← lift (order_loop price_map (items payload) Float.zero []);
  order_id ← Store.insert_one "order" (order_doc payload items total);
  mret (dict_of [("id", VStr (ObjectId_str order_id));
                 ("total", VFloat (Float.round total 2));
                 ("status", VStr "placed")]).

Definition place_order (payload : PlaceOrderRequest)
  : option Database → http dict * option Database :=
  handler (place_order_body payload).

End PlaceOrder.

(** [limit: int = 20]: [None] is a request without the query parameter. *)
Definition list_orders (limit : option Z)
  : option Database → http (list dict) * option Database :=
  let limit := default 20 limit in
  handler (docs ← Store.fetch (Store.limit limit
                     (Store.sort (-1) (Store.find "order" Store.all)));
           mret (serialize_doc ∘ document <$> docs)).

(** [response[k] = v] *)
Definition setitem (k : string) (v : value) : ST dict () := λ d, (Ok (), <[k := v]> d).

(** Truth value of [os.getenv(k)]: set, and not the empty string. *)
Definition getenv_true (env : gmap string string) (k : string) : bool :=
  match env !! k with
  | Some s => bool_decide (s ≠ "")
  | None => false
  end.

(** The diagnostic route.  [env] is the process environment.  A store
    handle always has a [name], so [hasattr(db, 'name')] holds.  The text of
    an exception is cut to its first 50 characters. *)
Definition test_database (env : gmap string string) (db : option Database) : result dict :=
  let response :=
    dict_of [("backend", VStr "✅ Running");
             ("database", VStr "❌ Not Available");
             ("database_url", VNone);
             ("database_name", VNone);
             ("connection_status", VStr "Not Connected");
             ("collections", VList [])] in
  let block : ST dict () :=
    try_except
      (match db with
       | Some d =>
           _ ← setitem "database" (VStr "✅ Available");
           _ ← setitem "database_url" (VStr "✅ Configured");
           _ ← setitem "database_name" (VStr (name d));
           _ ← setitem "connection_status" (VStr "Connected");
           try_except
             (collections ← lift (Store.list_collection_names d).1;
              _ ← setitem "collections" (VList (VStr <$> take 10 collections));
              setitem "database" (VStr "✅ Connected & Working"))
             (λ e, setitem "database"
                     (VStr ("⚠️  Connected but Error: " +:+ str_prefix 50 (str_exn e))))
       | None => setitem "database" (VStr "⚠️  Available but not initialized")
       end)
      (λ e, setitem "database" (VStr ("❌ Error: " +:+ str_prefix 50 (str_exn e)))) in
  let '(r, response) := block response in
  _ ← r;
  let response :=
    <["database_url" := VStr (if getenv_true env "DATABASE_URL" then "✅ Set" else "❌ Not Set")]>
      response in
  let response :=
    <["database_name" := VStr (if getenv_true env "DATABASE_NAME" then "✅ Set" else "❌ Not Set")]>
      response in
  Ok response.

(** ** [schemas.py]

    The numeric bounds the models declare, as the validators [ge] and [le]
    decide them (a NaN satisfies neither). *)

Module schemas.

Definition ge (bound x : float) : bool := Float.leb bound x.
Definition le (bound x : float) : bool := Float.leb x bound.

(** [Restaurant.rating: Optional[float] = Field(4.5, ge=0, le=5)] *)
Definition Restaurant_rating (rating : option float) : bool :=
  match rating with
  | Some x => ge Float.zero x && le (Float.of_Z 5) x
  | None => true
  end.

(** [Restaurant.delivery_time_min: Optional[int] = Field(25, ge=5, le=120)] *)
Definition Restaurant_delivery_time_min (t : option Z) : bool :=
  match t with
  | Some n => (5 <=? n) && (n <=? 120)
  | None => true
  end.

(** [Menuitem.price: float = Field(..., ge=0)] *)
Definition Menuitem_price (price : float) : bool := ge Float.zero price.

(** [Menuitem.spicy_level: Optional[int] = Field(0, ge=0, le=3)] *)
Definition Menuitem_spicy_level (l : option Z) : bool :=
  match l with
  | Some n => (0 <=? n) && (n <=? 3)
  | None => true
  end.

(** [Order.total: Optional[float] = Field(None, ge=0)] *)
Definition Order_total (total : option float) : bool :=
  match total with
  | Some x => ge Float.zero x
  | None => true
  end.

End schemas.

(** ** Vocabulary of the statements *)

(** A menu item of the restaurant [rid]: its [restaurant_id] is that very
    string. *)
Definition menu_of (rid : string) (d : stored) : Prop :=
  fields d !! "restaurant_id" = Some (VStr rid).

#[global] Instance menu_of_dec rid d : Decision (menu_of rid d).
Proof.
  unfold menu_of.
  destruct (fields d !! "restaurant_id") as [[]|]; try (right; congruence).
  destruct (decide (s = rid)); [left|right]; congruence.
Defined.

(** The menu item does not name several restaurants: its [restaurant_id]
    is not an array. *)
Definition one_restaurant (d : stored) : Prop :=
  ∀ l, fields d !! "restaurant_id" ≠ Some (VList l).


(** Identities never increase along the list. *)
Definition newest_first (docs : list stored) : Prop :=
  StronglySorted Store.id_ge docs.

(** The store answers. *)
Definition available (db : Database) : Prop := fault db = None.

(** The [k]-th identity the generator of [db] hands out from now on. *)
Definition next_ObjectId (db : Database) (k : N) : ObjectId :=
  {| binary := be_bytes 12 (oid_counter db + k) |}.

Definition ok_ack : dict := dict_of [("status", VStr "ok")].

(** [docs] stored under the identities the generator of [db] hands out from
    its [k]-th on. *)
Fixpoint stored_from (db : Database) (k : N) (docs : list dict) : list stored :=
  match docs with
  | [] => []
  | doc :: docs' =>
      {| _id := next_ObjectId db k; fields := doc |} :: stored_from db (k + 1) docs'
  end.

(** One line of an order as it is persisted: the requested identity and
    quantity with the price found for it. *)
Record line := { line_id : string; line_quantity : Z; line_price : float }.

Definition line_value (l : line) : value :=
  item_dict (line_id l) (line_quantity l) (line_price l).

(** Price times quantity of a line. *)
Definition line_amount (l : line) : float :=
  Float.mul (line_price l) (Float.of_Z (line_quantity l)).

(** The sum of the line amounts, rounded to two decimal places. *)
Definition lines_total (ls : list line) : float :=
  Float.round (Float.sum (line_amount <$> ls)) 2.

(** [k] is the integer nearest to a hundred times [m * 2^e], the even one
    of the two when both are equally near. *)
Definition nearest_hundredths (m : positive) (e : Z) (k : Z) : Prop :=
  match e with
  | Zneg p =>
      let d := 2 ^ Zpos p in
      2 * Z.abs (Zpos m * 100 - k * d) ≤ d ∧
      (2 * Z.abs (Zpos m * 100 - k * d) = d → Z.even k = true)
  | _ => k = Zpos m * 2 ^ e * 100
  end.

(** [k] hundredths with the sign [s] as a float: the quotient of [k] by
    [100], correctly rounded. *)
Definition of_hundredths (s : bool) (k : Z) : float :=
  match k with
  | Zpos q => Float.div (S754_finite s q 0) (S754_finite false 100 0)
  | _ => S754_zero s
  end.

(** The lines of a request under the prices [price_map]; an identity
    without a price gets [0.0]. *)
Definition snapshot (price_map : gmap string float) (its : list CartItem) : list line :=
  (λ i, {| line_id := menuitem_id i; line_quantity := quantity i;
           line_price := default Float.zero (price_map !! menuitem_id i) |}) <$> its.

(** The identity is not one the store can hold. *)
Definition malformed (mid : string) : Prop :=
  ObjectId_parse mid = None.

Definition well_formed (mid : string) : Prop :=
  ∃ o, ObjectId_parse mid = Some o.

(** A quantity the store can hold: a signed 64-bit integer. *)
Definition representable (q : Z) : Prop := - 2 ^ 63 ≤ q < 2 ^ 63.

(** The menu items whose identity is among [oids]. *)
Definition menu_docs_for (oids : list ObjectId) (db : Database) : list stored :=
  filter (λ d, _id d ∈ oids) (collection db "menuitem").

(** The acknowledgment of an order stored under [order_id]. *)
Definition order_ack (order_id : ObjectId) (total : float) : dict :=
  dict_of [("id", VStr (ObjectId_str order_id));
           ("total", VFloat (Float.round total 2));
           ("status", VStr "placed")].

(** ** A small store for worked examples

    Two menu items [A] and [B] priced [10.0] and [5.0], and no order yet. *)

Definition id_A : string := "0000000000000000000000aa".
Definition id_B : string := "0000000000000000000000bb".

Definition demo_db : Database :=
  {| name := "food";
     collections :=
       {[ "menuitem" :=
            [ {| _id := {| binary := be_bytes 12 170 |};
                 fields := menu_item "r" "A" "first" (Float.of_Z 10) true 0 "" |};
              {| _id := {| binary := be_bytes 12 187 |};
                 fields := menu_item "r" "B" "second" (Float.of_Z 5) true 0 "" |} ] ]};
     oid_counter := 256;
     fault := None |}.

Definition demo_request (its : list CartItem) : PlaceOrderRequest :=
  {| restaurant_id := "r"; items := its; customer_name := "Ada";
     address := "1 Main St"; phone := "555"; notes := None |}.

(** An interpreter for the examples: no string is read as a number, which
    is enough where no price is a string, and every character above ASCII
    is printable. *)
Definition sample_py : Interpreter :=
  {| float_of_str := λ _, None; isprintable := λ _, true |}.

(** The order stored last, if any. *)
Definition last_order (h : option Database) : option stored :=
  db ← h; last (collection db "order").

(** Two orders without lines, the second one the more recent. *)
Definition two_orders_db : Database :=
  {| name := "food";
     collections :=
       {[ "order" :=
            [ {| _id := {| binary := be_bytes 12 1 |};
                 fields := order_doc (demo_request []) [] Float.zero |};
              {| _id := {| binary := be_bytes 12 2 |};
                 fields := order_doc (demo_request []) [] Float.zero |} ] ]};
     oid_counter := 3;
     fault := None |}.




(** The [total] of an acknowledgment. *)
Definition ack_total (a : http dict) : option value :=
  match a with
  | Respond resp => resp !! "total"
  | HTTPException _ _ => None
  end.

(** A menu on which the rounding of the total shows: four items priced
    [0.125], [2.675], [0.1] and [0.2], under the identities 1 to 4. *)
Definition tasting_db : Database :=
  {| name := "food";
     collections :=
       {[ "menuitem" :=
            [ {| _id := {| binary := be_bytes 12 1 |};
                 fields := menu_item "r" "eighth" "" (Float.lit 125 1000) true 0 "" |};
              {| _id := {| binary := be_bytes 12 2 |};
                 fields := menu_item "r" "odd" "" (Float.lit 2675 1000) true 0 "" |};
              {| _id := {| binary := be_bytes 12 3 |};
                 fields := menu_item "r" "tenth" "" (Float.lit 1 10) true 0 "" |};
              {| _id := {| binary := be_bytes 12 4 |};
                 fields := menu_item "r" "fifth" "" (Float.lit 2 10) true 0 "" |} ] ]};
     oid_counter := 256;
     fault := None |}.

(** A request for the items of [tasting_db], by number and quantity. *)
Definition tasting (its : list (Z * Z)) : PlaceOrderRequest :=
  demo_request ((λ '(n, q), {| menuitem_id :=
                                 ObjectId_str {| binary := be_bytes 12 (Z.to_N n) |};
                               quantity := q |}) <$> its).






(** A store that answers and holds nothing yet. *)
Definition empty_db : Database :=
  {| name := "food"; collections := ∅; oid_counter := 0; fault := None |}.

(** The identity order is a total preorder. *)
#[global] Instance id_ge_total : Total Store.id_ge.
Proof. intros a b. unfold Store.id_ge, Store.id_le. lia. Qed.
#[global] Instance id_ge_trans : Transitive Store.id_ge.
Proof. intros a b c. unfold Store.id_ge, Store.id_le. lia. Qed.

(** Looks a literal key up in a dictionary display. *)
Ltac dict_lookup :=
  unfold dict_of; simpl foldl;
  repeat (rewrite lookup_insert_ne by done);
  first [apply lookup_insert_eq | apply lookup_empty].

(** ** The application

    The route table that the decorators [@app.get] and [@app.post] build:
    a request is matched to its handler, and the framework answers with
    what the handler returns or raises. *)

Inductive request :=
| POST_seed                                   (* [POST /seed] *)
| GET_root                                    (* [GET /] *)
| GET_restaurants                             (* [GET /restaurants] *)
| GET_menu (restaurant_id : string)           (* [GET /restaurants/{restaurant_id}/menu] *)
| POST_orders (payload : PlaceOrderRequest)   (* [POST /orders] *)
| GET_orders (limit : option Z)               (* [GET /orders] *)
| GET_test.                                   (* [GET /test] *)

(** What a handler returns: a [dict], or a list of them. *)
Inductive body :=
| JSON_object (d : dict)
| JSON_array (l : list dict).

Definition http_map {A B} (f : A → B) (r : http A) : http B :=
  match r with
  | Respond a => Respond (f a)
  | HTTPException status_code detail => HTTPException status_code detail
  end.

(** A key that the framework's encoder leaves out of a [dict]: one that
    begins with [_sa]. *)
Definition left_out (k : string) : bool :=
  match k with
  | String "_" (String "s" (String "a" _)) => true
  | _ => false
  end.

(** What the framework can write as JSON.  Its encoder goes through lists
    and through the entries of a [dict] that it does not leave out, and
    knows no [ObjectId]; the response is then rendered with
    [allow_nan=False], which refuses a float that is not finite. *)
Fixpoint renderable (v : value) : bool :=
  match v with
  | VFloat f => Float.is_finite f
  | VOid _ => false
  | VList l => forallb renderable l
  | VDict d => map_fold (λ k x ok, (left_out k || renderable x) && ok) true d
  | _ => true
  end.

Definition body_renderable (b : body) : bool :=
  match b with
  | JSON_object d => renderable (VDict d)
  | JSON_array l => forallb (λ d, renderable (VDict d)) l
  end.

(** What the client is answered. *)
Inductive answer :=
| OK_200 (result : body)                    (* status 200, the body written from [result] *)
| Error (status_code : Z) (detail : string) (* an [HTTPException]: [{"detail": detail}] *)
| Internal_Server_Error.                    (* an exception nobody caught: the plain 500 *)

(** The framework's part after the handler: an [HTTPException] is answered
    as such, a result is encoded and rendered, and a result for which that
    fails is an exception nobody catches. *)
Definition respond (r : http body) : answer :=
  match r with
  | Respond b => if body_renderable b then OK_200 b else Internal_Server_Error
  | HTTPException status_code detail => Error status_code detail
  end.

(** [app] serving one request: the answer and the store handle afterwards.
    [env] is the process environment, which only the diagnostic route
    reads. *)
Definition serve (py : Interpreter) (env : gmap string string)
    (r : request) (h : option Database) : answer * option Database :=
  match r with
  | POST_seed => let '(a, h') := seed h in (respond (http_map JSON_object a), h')
  | GET_root => (respond (Respond (JSON_object read_root)), h)
  | GET_restaurants =>
      let '(a, h') := list_restaurants h in (respond (http_map JSON_array a), h')
  | GET_menu restaurant_id =>
      let '(a, h') := get_menu restaurant_id h in (respond (http_map JSON_array a), h')
  | POST_orders payload =>
      let '(a, h') := place_order py payload h in (respond (http_map JSON_object a), h')
  | GET_orders limit =>
      let '(a, h') := list_orders limit h in (respond (http_map JSON_array a), h')
  | GET_test =>
      (match test_database env h with
       | Ok d => respond (Respond (JSON_object d))
       | Raise _ => Internal_Server_Error
       end, h)
  end.

(** The store handle after a sequence of requests, served one by one. *)
Definition run (py : Interpreter) (env : gmap string string)
    (rs : list request) (h : option Database) : option Database :=
  foldl (λ h r, (serve py env r h).2) h rs.

(** The routes that only read. *)
Definition is_read (r : request) : bool :=
  match r with
  | POST_seed | POST_orders _ => false
  | _ => true
  end.

(** The routes that talk to the store through [db[...]]. *)
Definition uses_store (r : request) : bool :=
  match r with
  | GET_root | GET_test => false
  | _ => true
  end.

(** Every collection of [db'] starts with what [db] holds in it: nothing
    was removed, reordered or rewritten; and the store answers as before. *)
Definition grown_from (db db' : Database) : Prop :=
  fault db' = fault db ∧ name db' = name db ∧
  ∀ coll, collection db coll `prefix_of` collection db' coll.

(** A block of statements that leaves the store as it found it. *)
Definition reads {A} (m : ST Database A) : Prop := ∀ db, (m db).2 = db.

(** A block of statements after which the store has only grown. *)
Definition grows {A} (m : ST Database A) : Prop := ∀ db, grown_from db (m db).2.

(** The same for store handles: no handle stays no handle. *)
Definition handle_grown_from (h h' : option Database) : Prop :=
  match h, h' with
  | Some db, Some db' => grown_from db db'
  | None, None => True
  | _, _ => False
  end.

(** [n] times the letter [é], a character of two bytes. *)
Fixpoint accents (n : nat) : string :=
  match n with
  | O => ""
  | S n' => "é" +:+ accents n'
  end.

(** A store whose server fails with a text of 51 such letters. *)
Definition garbled_db : Database :=
  {| name := "food"; collections := ∅; oid_counter := 0;
     fault := Some (accents 51) |}.

(** A menu item that some other writer stored for two restaurants at
    once. *)
Definition shared_db : Database :=
  {| name := "food";
     collections :=
       {[ "menuitem" :=
            [ {| _id := {| binary := be_bytes 12 170 |};
                 fields := <["restaurant_id" := VList [VStr "r"; VStr "s"]]>
                             (menu_item "" "A" "first" (Float.of_Z 10) true 0 "") |} ] ]};
     oid_counter := 256;
     fault := None |}.

(** Sixty restaurants, the [n]-th of them under the identity [n]. *)
Definition crowded_db : Database :=
  {| name := "food";
     collections :=
       {[ "restaurant" :=
            (λ n : nat, {| _id := {| binary := be_bytes 12 (N.of_nat n) |};
                           fields := spice_route |})
              <$> seq 1 60 ]};
     oid_counter := 61;
     fault := None |}.

(** One menu item, priced [1e308]. *)
Definition costly_db : Database :=
  {| name := "food";
     collections :=
       {[ "menuitem" :=
            [ {| _id := {| binary := be_bytes 12 170 |};
                 fields := menu_item "r" "A" "first" (Float.of_Z (10 ^ 308)) true 0 "" |} ] ]};
     oid_counter := 256;
     fault := None |}.

(** [demo_db] with a server that does not answer. *)
Definition down_db : Database :=
  {| name := name demo_db; collections := collections demo_db;
     oid_counter := oid_counter demo_db; fault := Some "connection refused" |}.

(** A float that is not below zero: a zero of either sign, a positive
    number or plus infinity. *)
Definition not_negative (x : float) : Prop :=
  match x with
  | S754_zero _ => True
  | S754_finite s _ _ | S754_infinity s => s = false
  | S754_nan => False
  end.

(** A stored restaurant whose numbers are within the bounds that
    [schemas.Restaurant] declares. *)
Definition restaurant_in_bounds (d : stored) : Prop :=
  ∃ (rating : float) (t : Z),
    fields d !! "rating" = Some (VFloat rating) ∧
    schemas.Restaurant_rating (Some rating) = true ∧
    fields d !! "delivery_time_min" = Some (VInt t) ∧
    schemas.Restaurant_delivery_time_min (Some t) = true.

(** A stored menu item whose numbers are within the bounds that
    [schemas.Menuitem] declares, with a finite price. *)
Definition menuitem_in_bounds (d : stored) : Prop :=
  ∃ (price : float) (l : Z),
    fields d !! "price" = Some (VFloat price) ∧
    schemas.Menuitem_price price = true ∧ Float.is_finite price = true ∧
    fields d !! "spicy_level" = Some (VInt l) ∧
    schemas.Menuitem_spicy_level (Some l) = true.

(** Every menu item behind the handle names one restaurant. *)
Definition plain_menu (h : option Database) : Prop :=
  match h with
  | Some db => Forall one_restaurant (collection db "menuitem")
  | None => True
  end.

(** Every restaurant and every menu item behind the handle is within
    bounds. *)
Definition catalogue_in_bounds (h : option Database) : Prop :=
  match h with
  | Some db =>
      Forall restaurant_in_bounds (collection db "restaurant") ∧
      Forall menuitem_in_bounds (collection db "menuitem")
  | None => True
  end.

(** * Properties *)

(** ** State, exceptions and the handler frame *)

Lemma bind_ok {S A B} (m : ST S A) (f : A → ST S B) s a s' :
  m s = (Ok a, s') → (m ≫= f) s = f a s'.
Proof. intros H. unfold mbind, ST_bind. by rewrite H. Qed.

Lemma bind_raise {S A B} (m : ST S A) (f : A → ST S B) s e s' :
  m s = (Raise e, s') → (m ≫= f) s = (Raise e, s').
Proof. intros H. unfold mbind, ST_bind. by rewrite H. Qed.

Lemma handler_ok {A} (body : ST Database A) (db db' : Database) (a : A) :
  body db = (Ok a, db') → handler body (Some db) = (Respond a, Some db').
Proof. intros H. unfold handler. by rewrite H. Qed.

Lemma handler_raise {A} (body : ST Database A) (db db' : Database) (e : exn) :
  body db = (Raise e, db') →
  handler body (Some db) = (HTTPException 500 (str_exn e), Some db').
Proof. intros H. unfold handler. by rewrite H. Qed.

Lemma handler_respond_inv {A} (body : ST Database A) (h h' : option Database) (a : A) :
  handler body h = (Respond a, h') →
  ∃ db db', h = Some db ∧ h' = Some db' ∧ body db = (Ok a, db').
Proof.
  unfold handler. destruct h as [db|]; [|done].
  destruct (body db) as [[a'|e] db'] eqn:Hb; simpl; [|done].
  intros [= -> <-]. eauto.
Qed.

(** ** The store operations *)

Lemma collection_set_eq (coll : string) (docs : list stored) (db : Database) :
  collection (set_collection coll docs db) coll = docs.
Proof. unfold collection, set_collection. simpl. by rewrite lookup_insert_eq. Qed.

Lemma collection_set_ne (coll coll' : string) (docs : list stored) (db : Database) :
  coll ≠ coll' → collection (set_collection coll docs db) coll' = collection db coll'.
Proof. intros H. unfold collection, set_collection. simpl. by rewrite lookup_insert_ne. Qed.

Lemma fetch_ok (c : Store.Cursor) (db : Database) :
  available db → Z.abs (Store.cur_limit c) < 2 ^ 63 →
  Store.fetch c db =
    (Ok (Store.limited (Store.cur_limit c)
           (let docs := filter (λ d, Store.matches (Store.cur_query c) d = true)
                          (collection db (Store.cur_collection c)) in
            match Store.cur_sort c with
            | Some direction => Store.sorted direction docs
            | None => docs
            end)), db).
Proof.
  intros Hf Hl. unfold Store.fetch, Store.round_trip, Store.encode, lift, get.
  unfold mbind, ST_bind, mret, ST_ret. rewrite Hf. simpl.
  replace (_ && _) with true; [done|].
  symmetry. apply andb_true_iff. split; [apply Z.leb_le|apply Z.ltb_lt]; lia.
Qed.

Lemma fetch_fault (c : Store.Cursor) (db : Database) (msg : string) :
  fault db = Some msg → Store.fetch c db = (Raise (PyMongoError msg), db).
Proof.
  intros Hf. unfold Store.fetch, Store.round_trip, mbind, ST_bind. by rewrite Hf.
Qed.

Lemma fetch_id_in (oids : list ObjectId) (db : Database) :
  available db →
  Store.fetch (Store.find "menuitem" (Store.id_in oids)) db
    = (Ok (menu_docs_for oids db), db).
Proof.
  intros Hf. rewrite fetch_ok by (done || (simpl; lia)).
  simpl. unfold Store.limited. simpl. do 2 f_equal.
  apply list_filter_iff. intros d. apply bool_decide_eq_true.
Qed.

Lemma filter_all_true (q : Store.query) (l : list stored) :
  q = Store.all → filter (λ d, Store.matches q d = true) l = l.
Proof.
  intros ->. simpl. induction l as [|d l IH]; [done|].
  rewrite filter_cons_True by done. by rewrite IH.
Qed.

Lemma StronglySorted_take {A} (R : relation A) (n : nat) (l : list A) :
  StronglySorted R l → StronglySorted R (take n l).
Proof.
  intros H. rewrite <- (take_drop n l) in H.
  by apply StronglySorted_app_1_l in H.
Qed.

Lemma matches_field_is (k s : string) (d : stored) :
  (∀ l, fields d !! k ≠ Some (VList l)) →
  Store.matches (Store.field_is k s) d = true ↔ fields d !! k = Some (VStr s).
Proof.
  intros Hl. simpl.
  destruct (fields d !! k) as [[| | | | | |l|]|]; try (split; [done|congruence]).
  - rewrite bool_decide_eq_true. split; congruence.
  - by destruct (Hl l).
Qed.

Lemma new_ObjectId_run (db : Database) :
  ∃ db1, Store.new_ObjectId db = (Ok (next_ObjectId db 0), db1) ∧
         fault db1 = fault db ∧ collections db1 = collections db ∧
         oid_counter db1 = (oid_counter db + 1)%N.
Proof.
  unfold Store.new_ObjectId, next_ObjectId. rewrite N.add_0_r.
  eexists. split; [reflexivity|done].
Qed.

Lemma count_documents_ok (coll : string) (db : Database) :
  available db →
  Store.count_documents coll db = (Ok (Z.of_nat (length (collection db coll))), db).
Proof.
  intros Hf. unfold Store.count_documents, Store.round_trip, get.
  unfold mbind, ST_bind, mret, ST_ret. by rewrite Hf.
Qed.

Lemma insert_one_ok (coll : string) (doc : dict) (db : Database) :
  available db → bson_encodable (VDict doc) = true →
  ∃ db', Store.insert_one coll doc db = (Ok (next_ObjectId db 0), db') ∧
         available db' ∧ oid_counter db' = (oid_counter db + 1)%N ∧
         collection db' coll = collection db coll ++ [{| _id := next_ObjectId db 0; fields := doc |}] ∧
         (∀ coll', coll ≠ coll' → collection db' coll' = collection db coll').
Proof.
  intros Hf He. unfold Store.insert_one.
  destruct (new_ObjectId_run db) as (db1 & Hn & Hf1 & Hc1 & Ho1).
  eexists. split.
  - erewrite bind_ok by exact Hn.
    unfold Store.round_trip, Store.encode, Store.append, lift, get, put.
    unfold mbind, ST_bind, mret, ST_ret. rewrite Hf1, Hf, He. reflexivity.
  - unfold available. simpl. rewrite Hf1. split; [done|]. split; [done|].
    split.
    + rewrite collection_set_eq. unfold collection. by rewrite Hc1.
    + intros coll' Hne. rewrite collection_set_ne by done.
      unfold collection. by rewrite Hc1.
Qed.

Lemma insert_one_cases (coll : string) (doc : dict) (db : Database) :
  (∃ e db', Store.insert_one coll doc db = (Raise e, db') ∧
            collections db' = collections db) ∨
  (∃ db', Store.insert_one coll doc db = (Ok (next_ObjectId db 0), db') ∧
          available db ∧ bson_encodable (VDict doc) = true ∧
          collection db' coll =
            collection db coll ++ [{| _id := next_ObjectId db 0; fields := doc |}] ∧
          (∀ coll', coll ≠ coll' → collection db' coll' = collection db coll')).
Proof.
  destruct (fault db) as [msg|] eqn:Hf.
  - left. unfold Store.insert_one.
    destruct (new_ObjectId_run db) as (db1 & Hn & Hf1 & Hc1 & _).
    exists (PyMongoError msg), db1. erewrite bind_ok by exact Hn.
    unfold Store.round_trip, mbind, ST_bind. by rewrite Hf1, Hf.
  - destruct (bson_encodable (VDict doc)) eqn:He.
    + right. destruct (insert_one_ok coll doc db Hf He) as (db' & H & _ & _ & Hc & Hx).
      eauto 10.
    + left. unfold Store.insert_one.
      destruct (new_ObjectId_run db) as (db1 & Hn & Hf1 & Hc1 & _).
      eexists _, db1. erewrite bind_ok by exact Hn.
      unfold Store.round_trip, Store.encode, lift, mbind, ST_bind.
      by rewrite Hf1, Hf, He.
Qed.

Lemma stored_from_shift (db db1 : Database) (k : N) (docs : list dict) :
  oid_counter db1 = (oid_counter db + 1)%N →
  stored_from db1 k docs = stored_from db (k + 1) docs.
Proof.
  intros Ho. revert k. induction docs as [|doc docs IH]; intros k; [done|].
  simpl. rewrite IH. unfold next_ObjectId. rewrite Ho.
  by replace (oid_counter db + 1 + k)%N with (oid_counter db + (k + 1))%N by lia.
Qed.

Lemma stored_from_length (db : Database) (k : N) (docs : list dict) :
  length (stored_from db k docs) = length docs.
Proof. revert k. induction docs; intros k; simpl; [done|]. by rewrite IHdocs. Qed.

Lemma assign_ids_run (docs : list dict) (db : Database) :
  ∃ db1, Store.assign_ids docs db = (Ok (stored_from db 0 docs), db1) ∧
         fault db1 = fault db ∧ collections db1 = collections db ∧
         oid_counter db1 = (oid_counter db + N.of_nat (length docs))%N.
Proof.
  revert db. induction docs as [|doc docs IH]; intros db.
  - exists db. simpl. unfold mret, ST_ret. rewrite N.add_0_r. done.
  - destruct (new_ObjectId_run db) as (db1 & Hn & Hf1 & Hc1 & Ho1).
    destruct (IH db1) as (db2 & Ha & Hf2 & Hc2 & Ho2).
    exists db2. split; [|repeat split; try congruence; rewrite Ho2, Ho1; simpl length; lia].
    simpl. erewrite bind_ok by exact Hn. erewrite bind_ok by exact Ha.
    unfold mret, ST_ret. by rewrite (stored_from_shift db db1).
Qed.

Lemma insert_many_ok (coll : string) (docs : list dict) (db : Database) :
  available db → bson_encodable (VList (VDict <$> docs)) = true →
  ∃ db', Store.insert_many coll docs db = (Ok (), db') ∧
         available db' ∧
         oid_counter db' = (oid_counter db + N.of_nat (length docs))%N ∧
         collection db' coll = collection db coll ++ stored_from db 0 docs ∧
         (∀ coll', coll ≠ coll' → collection db' coll' = collection db coll').
Proof.
  intros Hf He. unfold Store.insert_many.
  destruct (assign_ids_run docs db) as (db1 & Ha & Hf1 & Hc1 & Ho1).
  eexists. split.
  - erewrite bind_ok by exact Ha.
    unfold Store.round_trip, Store.encode, Store.append, lift, get, put.
    unfold mbind, ST_bind, mret, ST_ret. rewrite Hf1, Hf, He. reflexivity.
  - unfold available. simpl. rewrite Hf1. split; [done|]. split; [done|].
    split.
    + rewrite collection_set_eq. unfold collection. by rewrite Hc1.
    + intros coll' Hne. rewrite collection_set_ne by done.
      unfold collection. by rewrite Hc1.
Qed.

(** ** Identities in the answers *)

Lemma serialize_native_id (doc : dict) (o : ObjectId) :
  doc !! "_id" = Some (VOid o) →
  serialize_doc doc !! "id" = Some (VStr (ObjectId_str o)) ∧ serialize_doc doc !! "_id" = None.
Proof.
  intros H. unfold serialize_doc.
  destruct (decide _) as [->|_]; [by rewrite lookup_empty in H|].
  rewrite H. split.
  - rewrite lookup_delete_ne by done. by rewrite lookup_insert_eq.
  - by rewrite lookup_delete_eq.
Qed.

Lemma serialize_document_id (d : stored) :
  serialize_doc (document d) !! "id" = Some (VStr (ObjectId_str (_id d))).
Proof.
  unfold serialize_doc, document.
  destruct (decide _) as [He|_].
  - apply insert_non_empty in He. done.
  - rewrite lookup_insert_eq. rewrite lookup_delete_ne by done. by rewrite lookup_insert_eq.
Qed.

Lemma serialize_document_no_raw_id (d : stored) :
  serialize_doc (document d) !! "_id" = None.
Proof.
  eapply serialize_native_id. unfold document. apply lookup_insert_eq.
Qed.

Lemma serialize_document_field (d : stored) (k : string) :
  k ≠ "id" → k ≠ "_id" → serialize_doc (document d) !! k = fields d !! k.
Proof.
  intros H1 H2. unfold serialize_doc, document.
  destruct (decide _) as [He|_].
  - apply insert_non_empty in He. done.
  - rewrite lookup_insert_eq. rewrite lookup_delete_ne by done.
    rewrite lookup_insert_ne by done. by rewrite lookup_insert_ne.
Qed.

(** ** Menu retrieval *)

Lemma menu_item_restaurant_id rid n d p v s i :
  menu_item rid n d p v s i !! "restaurant_id" = Some (VStr rid).
Proof. unfold menu_item. dict_lookup. Qed.

Lemma get_menu_fetch (rid : string) (db : Database) :
  available db →
  get_menu rid (Some db) =
    (Respond (serialize_doc ∘ document <$>
                take 200 (filter (λ d, Store.matches
                                         (Store.field_is "restaurant_id" rid) d = true)
                                 (collection db "menuitem"))),
     Some db).
Proof.
  intros Hf. unfold get_menu. apply handler_ok.
  erewrite bind_ok; [|apply fetch_ok; [done|simpl; lia]].
  reflexivity.
Qed.

Lemma get_menu_run (rid : string) (db : Database) :
  available db → Forall one_restaurant (collection db "menuitem") →
  get_menu rid (Some db) =
    (Respond (serialize_doc ∘ document <$>
                take 200 (filter (menu_of rid) (collection db "menuitem"))),
     Some db).
Proof.
  intros Hf Hone. rewrite get_menu_fetch by done. do 4 f_equal.
  induction Hone as [|d l Hd _ IH]; [done|].
  rewrite !filter_cons, IH.
  destruct (decide (Store.matches _ d = true)) as [Hm|Hm], (decide (menu_of rid d)) as [Ho|Ho];
    try done.
  - by apply (matches_field_is _ _ _ Hd) in Hm.
  - by apply (matches_field_is _ _ _ Hd) in Ho.
Qed.

(** C6: for every string [rid] given as the restaurant identity, whether or
    not a restaurant has it and whatever its shape, menu retrieval on an
    available store whose menu items name one restaurant each answers with
    the menu items whose [restaurant_id] is exactly [rid], the first 200 of
    them at most; the store is left as it was, and when no menu item has
    that [restaurant_id] the answer is the empty array, not an error.  The
    service itself stores no menu item that names several restaurants.
    On every available store the answer is a list of at most 200 entities,
    each with [rid] as its [restaurant_id] or among the elements of it: the
    server also matches an array that holds the string, as the run on
    [shared_db] shows. *)
Theorem get_menu_by_restaurant_id :
  (∀ (rid : string) (db : Database),
     available db →
     Forall one_restaurant (collection db "menuitem") →
     ∃ out,
       get_menu rid (Some db) = (Respond out, Some db) ∧
       out = (serialize_doc ∘ document <$>
                take 200 (filter (menu_of rid) (collection db "menuitem"))) ∧
       (length out ≤ 200)%nat ∧
       (∀ e, e ∈ out → e !! "restaurant_id" = Some (VStr rid)) ∧
       (Forall (λ d, ¬ menu_of rid d) (collection db "menuitem") → out = [])) ∧
  (∀ (rid : string) (db : Database),
     available db →
     ∃ out,
       get_menu rid (Some db) = (Respond out, Some db) ∧
       (length out ≤ 200)%nat ∧
       ∀ e, e ∈ out →
            e !! "restaurant_id" = Some (VStr rid) ∨
            ∃ l, e !! "restaurant_id" = Some (VList l) ∧ VStr rid ∈ l) ∧
  (∃ e : dict,
     get_menu "r" (Some shared_db) = (Respond [e], Some shared_db) ∧
     e !! "restaurant_id" = Some (VList [VStr "r"; VStr "s"])).
Proof.
  split; [|split].
  - intros rid db Hf Hone. eexists. split; [|split; [reflexivity|]].
    + by apply get_menu_run.
    + split; [|split].
      * rewrite length_fmap, length_take. lia.
      * intros e (d & -> & Hd)%list_elem_of_fmap.
        apply elem_of_take in Hd as (i & Hd & _).
        apply list_elem_of_lookup_2, list_elem_of_filter in Hd as [Hd _].
        simpl. by rewrite serialize_document_field.
      * intros Hall. clear Hone. induction Hall as [|d l Hd _ IH]; [done|].
        rewrite filter_cons_False by done. apply IH.
  - intros rid db Hf. eexists. split; [by apply get_menu_fetch|]. split.
    + rewrite length_fmap, length_take. lia.
    + intros e (d & -> & Hd)%list_elem_of_fmap.
      apply elem_of_take in Hd as (i & Hd & _).
      apply list_elem_of_lookup_2, list_elem_of_filter in Hd as [Hd _].
      simpl. rewrite serialize_document_field by done.
      simpl in Hd.
      destruct (fields d !! "restaurant_id") as [[| | | |s| |l|]|]; try done.
      * left. by apply bool_decide_eq_true in Hd as ->.
      * right. exists l. split; [done|].
        apply existsb_exists in Hd as (v & Hv & Hs).
        destruct v as [| | | |s| | |]; try done.
        apply bool_decide_eq_true in Hs as ->. by apply list_elem_of_In.
  - eexists. split; [rewrite get_menu_fetch by done; vm_compute; reflexivity|].
    vm_compute. reflexivity.
Qed.

Lemma demo_db_one_restaurant : Forall one_restaurant (collection demo_db "menuitem").
Proof.
  repeat constructor; intros l; unfold one_restaurant; simpl;
    rewrite menu_item_restaurant_id; discriminate.
Qed.

Lemma get_menu_by_restaurant_id_witness :
  ∃ out : list dict,
    get_menu "r" (Some demo_db) = (Respond out, Some demo_db) ∧
    length out = 2%nat ∧
    ∀ e, e ∈ out → e !! "restaurant_id" = Some (VStr "r").
Proof.
  destruct (proj1 get_menu_by_restaurant_id "r" demo_db)
    as (out & Hg & Hout & _ & Hall & _).
  - reflexivity.
  - exact demo_db_one_restaurant.
  - exists out. split; [exact Hg|]. split; [|exact Hall].
    rewrite Hout. vm_compute. reflexivity.
Defined.

(** ** The listing routes *)

Lemma fetch_inv (c : Store.Cursor) (db db' : Database) (docs : list stored) :
  Store.fetch c db = (Ok docs, db') →
  db' = db ∧ docs ⊆ collection db (Store.cur_collection c).
Proof.
  unfold Store.fetch, Store.round_trip, Store.encode, lift, get.
  unfold mbind, ST_bind, mret, ST_ret.
  destruct (fault db); [done|].
  destruct (bson_encodable _); [|done].
  intros [= <- <-]. split; [done|].
  intros d Hd. unfold Store.limited in Hd.
  assert (d ∈ match Store.cur_sort c with
              | Some direction =>
                  Store.sorted direction
                    (filter (λ d, Store.matches (Store.cur_query c) d = true)
                            (collection db (Store.cur_collection c)))
              | None => filter (λ d, Store.matches (Store.cur_query c) d = true)
                               (collection db (Store.cur_collection c))
              end) as Hd'.
  { destruct (decide _); [done|].
    apply elem_of_take in Hd as (i & Hd & _). by eapply list_elem_of_lookup_2. }
  clear Hd.
  assert (d ∈ filter (λ d, Store.matches (Store.cur_query c) d = true)
                     (collection db (Store.cur_collection c))) as Hd.
  { destruct (Store.cur_sort c) as [direction|]; [|done].
    unfold Store.sorted in Hd'.
    destruct (decide _); by rewrite merge_sort_Permutation in Hd'. }
  by apply list_elem_of_filter in Hd as [_ ?].
Qed.

Lemma listing_inv (c : Store.Cursor) (h h' : option Database) (out : list dict) :
  handler (docs ← Store.fetch c; mret (serialize_doc ∘ document <$> docs)) h
    = (Respond out, h') →
  ∃ (db : Database) (docs : list stored),
    h = Some db ∧ docs ⊆ collection db (Store.cur_collection c) ∧
    out = (serialize_doc ∘ document <$> docs).
Proof.
  intros (db & db' & -> & -> & Hb)%handler_respond_inv.
  unfold mbind, ST_bind in Hb.
  destruct (Store.fetch c db) as [[docs|e] db1] eqn:Hfetch; [|done].
  injection Hb as <- <-. apply fetch_inv in Hfetch as [_ Hsub].
  by exists db, docs.
Qed.

(** C8: [serialize_doc] turns a document whose ["_id"] is a store-native
    identifier into one with the string field ["id"] and without ["_id"];
    and the answer of a listing route (restaurant listing, menu retrieval,
    order listing) is, entity by entity, made from documents stored in the
    collection of the route: each entity has [str] of the identity of its
    own document as ["id"], no ["_id"], and the other fields as that
    document has them. *)
Theorem listed_entities_expose_string_id :
  (∀ (doc : dict) (o : ObjectId),
      doc !! "_id" = Some (VOid o) →
      serialize_doc doc !! "id" = Some (VStr (ObjectId_str o)) ∧
      serialize_doc doc !! "_id" = None) ∧
  (∀ (h h' : option Database) (out : list dict) (coll : string),
      coll = "restaurant" ∧ list_restaurants h = (Respond out, h') ∨
      coll = "menuitem" ∧ (∃ rid, get_menu rid h = (Respond out, h')) ∨
      coll = "order" ∧ (∃ limit, list_orders limit h = (Respond out, h')) →
      ∃ (db : Database) (docs : list stored),
        h = Some db ∧ docs ⊆ collection db coll ∧
        Forall2 (λ (e : dict) (d : stored),
                   e !! "id" = Some (VStr (ObjectId_str (_id d))) ∧
                   e !! "_id" = None ∧
                   ∀ k, k ≠ "id" → k ≠ "_id" → e !! k = fields d !! k)
                out docs).
Proof.
  split; [apply serialize_native_id|].
  intros h h' out coll Hroute.
  assert (∃ (db : Database) (docs : list stored),
            h = Some db ∧ docs ⊆ collection db coll ∧
            out = (serialize_doc ∘ document <$> docs)) as (db & docs & -> & Hsub & ->).
  { destruct Hroute as [[-> H]|[[-> [rid H]]|[-> [limit H]]]];
      by apply listing_inv in H. }
  exists db, docs. split; [done|]. split; [exact Hsub|].
  apply Forall2_fmap_l, Forall_Forall2_diag, Forall_forall. intros d _. simpl.
  split; [apply serialize_document_id|].
  split; [apply serialize_document_no_raw_id|].
  intros k. apply serialize_document_field.
Qed.

Lemma listed_entities_expose_string_id_witness :
  (serialize_doc (document {| _id := next_ObjectId demo_db 0; fields := ok_ack |}) !! "_id"
     = None) ∧
  ∃ docs : list stored,
    docs ⊆ collection demo_db "menuitem" ∧
    Forall2 (λ (e : dict) (d : stored),
               e !! "id" = Some (VStr (ObjectId_str (_id d))) ∧ e !! "_id" = None)
            (serialize_doc ∘ document <$>
               take 200 (filter (menu_of "r") (collection demo_db "menuitem")))
            docs.
Proof.
  destruct listed_entities_expose_string_id as [Hdoc Hroute]. split.
  - eapply Hdoc. unfold document. apply lookup_insert_eq.
  - destruct (Hroute (Some demo_db) (Some demo_db)
                (serialize_doc ∘ document <$>
                   take 200 (filter (menu_of "r") (collection demo_db "menuitem")))
                "menuitem") as (db & docs & [= <-] & Hsub & Hall).
    + right. left. split; [done|]. exists "r".
      apply get_menu_run; [reflexivity|exact demo_db_one_restaurant].
    + exists docs. split; [exact Hsub|].
      eapply Forall2_impl; [exact Hall|]. by intros e d (? & ? & _).
Defined.

(** ** Order listing *)

Lemma list_orders_run (limit : option Z) (db : Database) :
  let n := default 20 limit in
  available db → 0 ≤ n < 2 ^ 63 →
  list_orders limit (Some db) =
    (Respond (serialize_doc ∘ document <$>
                (if decide (n = 0) then merge_sort Store.id_ge (collection db "order")
                 else take (Z.to_nat n) (merge_sort Store.id_ge (collection db "order")))),
     Some db).
Proof.
  intros n Hf Hn. unfold list_orders. apply handler_ok.
  erewrite bind_ok; [|apply fetch_ok; [done|simpl; fold n; lia]].
  simpl. unfold mret, ST_ret. do 3 f_equal.
  unfold Store.limited, Store.sorted. simpl. fold n.
  rewrite (filter_all_true Store.all) by done.
  destruct (decide (n = 0)); [done|]. f_equal. lia.
Qed.

(** C7, as amended: for a limit [n] with [0 ≤ n < 2^63] (20 when the query
    parameter is absent), order listing on an available store answers with
    all the orders sorted by identity, descending, cut to the first [n] when
    [0 < n] -- so at most [n] records then -- and not cut at all when
    [n = 0]; nothing is filtered out and the store is left as it was. *)
Theorem list_orders_limit (limit : option Z) (db : Database) :
  let n := default 20 limit in
  available db → 0 ≤ n < 2 ^ 63 →
  ∃ (all : list stored),
    all ≡ₚ collection db "order" ∧ newest_first all ∧
    let docs := if decide (n = 0) then all else take (Z.to_nat n) all in
    list_orders limit (Some db) = (Respond (serialize_doc ∘ document <$> docs), Some db) ∧
    newest_first docs ∧
    (0 < n → Z.of_nat (length docs) ≤ n).
Proof.
  intros n Hf Hn.
  exists (merge_sort Store.id_ge (collection db "order")).
  split. { apply merge_sort_Permutation. }
  split. { apply (StronglySorted_merge_sort Store.id_ge). }
  intros docs. split; [|split].
  - by apply list_orders_run.
  - unfold docs. destruct (decide _).
    + apply (StronglySorted_merge_sort Store.id_ge).
    + apply StronglySorted_take, (StronglySorted_merge_sort Store.id_ge).
  - intros Hpos. unfold docs. rewrite decide_False by lia.
    rewrite length_take. lia.
Qed.

Lemma list_orders_limit_witness :
  ∃ out : list dict,
    list_orders (Some 1) (Some two_orders_db) = (Respond out, Some two_orders_db) ∧
    length out = 1%nat.
Proof.
  destruct (list_orders_limit (Some 1) two_orders_db) as (all & Hperm & _ & Hl & _ & _).
  - reflexivity.
  - simpl. lia.
  - eexists. split; [exact Hl|].
    apply Permutation_length in Hperm.
    rewrite decide_False by done.
    rewrite length_fmap, length_take, Hperm. reflexivity.
Defined.

(** With [limit=0] the listing returns every order: two of them here. *)
Lemma list_orders_limit_zero_returns_all :
  let out := serialize_doc ∘ document <$>
               merge_sort Store.id_ge (collection two_orders_db "order") in
  list_orders (Some 0) (Some two_orders_db) = (Respond out, Some two_orders_db) ∧
  length out = 2%nat ∧
  ¬ (Z.of_nat (length out) ≤ 0).
Proof.
  intros out.
  assert (length out = 2%nat) as Hlen.
  { unfold out. rewrite length_fmap.
    by rewrite (Permutation_length (merge_sort_Permutation _ _)). }
  split; [|split; [exact Hlen|rewrite Hlen; simpl; lia]].
  apply (list_orders_run (Some 0) two_orders_db); [reflexivity|simpl; lia].
Qed.

(** ** Seeding *)

Lemma seed_docs_encodable (r1 r2 : ObjectId) :
  bson_encodable (VDict spice_route) = true ∧
  bson_encodable (VDict pasta_palace) = true ∧
  bson_encodable (VList (VDict <$> seed_menu r1 r2)) = true.
Proof. repeat split; vm_compute; reflexivity. Qed.

Lemma seed_body_fresh (db : Database) :
  available db → collection db "restaurant" = [] →
  let r1 := next_ObjectId db 0 in
  let r2 := next_ObjectId db 1 in
  ∃ db',
    seed_body db = (Ok ok_ack, db') ∧ available db' ∧
    collection db' "restaurant" =
      [ {| _id := r1; fields := spice_route |};
        {| _id := r2; fields := pasta_palace |} ] ∧
    collection db' "menuitem" =
      collection db "menuitem" ++ stored_from db 2 (seed_menu r1 r2) ∧
    (∀ coll, coll ≠ "restaurant" → coll ≠ "menuitem" →
             collection db' coll = collection db coll).
Proof.
  intros Hf Hr r1 r2.
  destruct (seed_docs_encodable r1 r2) as (He1 & He2 & He3).
  destruct (insert_one_ok "restaurant" spice_route db Hf He1)
    as (db1 & H1 & Hf1 & Ho1 & Hc1 & Hx1).
  destruct (insert_one_ok "restaurant" pasta_palace db1 Hf1 He2)
    as (db2 & H2 & Hf2 & Ho2 & Hc2 & Hx2).
  assert (next_ObjectId db1 0 = r2) as Hr2.
  { unfold r2, next_ObjectId. by rewrite Ho1, N.add_0_r. }
  rewrite Hr2 in H2, Hc2.
  destruct (insert_many_ok "menuitem" (seed_menu r1 r2) db2 Hf2 He3)
    as (db3 & H3 & Hf3 & Ho3 & Hc3 & Hx3).
  exists db3. split; [|split; [done|split; [|split]]].
  - unfold seed_body.
    erewrite bind_ok by (by apply count_documents_ok).
    rewrite Hr. simpl length. rewrite decide_True by done.
    erewrite bind_ok; [reflexivity|].
    erewrite bind_ok by exact H1. fold r1.
    erewrite bind_ok by exact H2. exact H3.
  - rewrite Hx3 by done. rewrite Hc2, Hc1, Hr. done.
  - rewrite Hc3, Hx2, Hx1 by done. f_equal.
    rewrite (stored_from_shift db1 db2) by done.
    rewrite (stored_from_shift db db1) by done. done.
  - intros coll Hn1 Hn2. rewrite Hx3, Hx2, Hx1 by done. done.
Qed.

Lemma seed_body_populated (db : Database) :
  available db → collection db "restaurant" ≠ [] →
  seed_body db = (Ok ok_ack, db).
Proof.
  intros Hf Hr. unfold seed_body.
  erewrite bind_ok by (by apply count_documents_ok).
  rewrite decide_False; [done|].
  destruct (collection db "restaurant"); [done|]. simpl length. lia.
Qed.

Lemma seed_body_fault (db : Database) (msg : string) :
  fault db = Some msg → seed_body db = (Raise (PyMongoError msg), db).
Proof.
  intros Hf. unfold seed_body, Store.count_documents, Store.round_trip.
  unfold mbind, ST_bind. by rewrite Hf.
Qed.

Lemma seed_run (db : Database) :
  ∃ r db', seed (Some db) = (r, Some db') ∧
    (available db → collection db "restaurant" = [] →
       r = Respond ok_ack ∧ available db' ∧
       length (collection db' "restaurant") = 2%nat ∧
       length (collection db' "menuitem") = (length (collection db "menuitem") + 4)%nat) ∧
    (¬ (available db ∧ collection db "restaurant" = []) → db' = db) ∧
    (∀ body, r = Respond body → body = ok_ack).
Proof.
  destruct (fault db) as [msg|] eqn:Hf.
  - exists (HTTPException 500 msg), db. split; [|split; [|split]].
    + unfold seed. by apply (handler_raise _ _ _ (PyMongoError msg)), seed_body_fault.
    + unfold available. congruence.
    + done.
    + done.
  - destruct (decide (collection db "restaurant" = [])) as [Hr|Hr].
    + destruct (seed_body_fresh db Hf Hr) as (db' & Hs & Hf' & Hc1 & Hc2 & _).
      exists (Respond ok_ack), db'. split; [|split; [|split]].
      * unfold seed. by apply handler_ok.
      * intros _ _. rewrite Hc1, Hc2, length_app, stored_from_length. done.
      * intros []. done.
      * by intros ? [= <-].
    + exists (Respond ok_ack), db. split; [|split; [|split]].
      * unfold seed. by apply handler_ok, seed_body_populated.
      * done.
      * done.
      * by intros ? [= <-].
Qed.

(** C4: seeding an available store whose restaurant collection is empty
    inserts the two fixed restaurants and the four fixed menu items, the
    first two carrying the string form of the first restaurant's new
    identity and the last two that of the second; seeding a store whose
    restaurant collection is not empty changes nothing; two invocations from
    a store without restaurants and menu items leave 2 restaurants and 4 menu
    items; every successful invocation answers [{"status": "ok"}]; and on
    every handle a second invocation leaves the store as the first left
    it. *)
Theorem seed_idempotent :
  (∀ db : Database, available db → collection db "restaurant" = [] →
     let r1 := next_ObjectId db 0 in
     let r2 := next_ObjectId db 1 in
     ∃ (db' : Database) (m1 m2 m3 m4 : stored),
       seed (Some db) = (Respond ok_ack, Some db') ∧
       collection db' "restaurant" =
         [ {| _id := r1; fields := spice_route |};
           {| _id := r2; fields := pasta_palace |} ] ∧
       collection db' "menuitem" = collection db "menuitem" ++ [m1; m2; m3; m4] ∧
       fields <$> [m1; m2; m3; m4] = seed_menu r1 r2 ∧
       menu_of (ObjectId_str r1) m1 ∧ menu_of (ObjectId_str r1) m2 ∧
       menu_of (ObjectId_str r2) m3 ∧ menu_of (ObjectId_str r2) m4 ∧
       collection db' "order" = collection db "order") ∧
  (∀ db : Database, available db → collection db "restaurant" ≠ [] →
     seed (Some db) = (Respond ok_ack, Some db)) ∧
  (∀ db : Database, available db →
     collection db "restaurant" = [] → collection db "menuitem" = [] →
     ∃ db2 : Database,
       (seed (seed (Some db)).2) = (Respond ok_ack, Some db2) ∧
       length (collection db2 "restaurant") = 2%nat ∧
       length (collection db2 "menuitem") = 4%nat) ∧
  (∀ (h h' : option Database) (body : dict),
     seed h = (Respond body, h') → body = ok_ack) ∧
  (∀ h : option Database, (seed (seed h).2).2 = (seed h).2).
Proof.
  split; [|split; [|split; [|split]]].
  - intros db Hf Hr r1 r2.
    destruct (seed_body_fresh db Hf Hr) as (db' & Hs & Hf' & Hc1 & Hc2 & Hx).
    fold r1 r2 in Hc1, Hc2.
    simpl in Hc2.
    eexists db', _, _, _, _. split; [by apply handler_ok|].
    split; [exact Hc1|]. split; [exact Hc2|].
    split; [reflexivity|]. unfold menu_of. simpl.
    rewrite !menu_item_restaurant_id. repeat split. by apply Hx.
  - intros db Hf Hr. by apply handler_ok, seed_body_populated.
  - intros db Hf Hr Hm.
    destruct (seed_body_fresh db Hf Hr) as (db' & Hs & Hf' & Hc1 & Hc2 & Hx).
    exists db'. unfold seed at 2. rewrite (handler_ok _ _ _ _ Hs). cbn [snd].
    split; [|split].
    + apply handler_ok, seed_body_populated; [done|]. by rewrite Hc1.
    + by rewrite Hc1.
    + by rewrite Hc2, Hm.
  - intros h h' body Hs. destruct h as [db|]; [|done].
    destruct (seed_run db) as (r & db' & Hrun & _ & _ & Hack).
    rewrite Hrun in Hs. injection Hs as -> _. by apply Hack.
  - intros [db|]; [|done].
    destruct (seed_run db) as (r & db' & Hrun & Hfresh & Hsame & _).
    rewrite Hrun. cbn [snd].
    destruct (seed_run db') as (r' & db2 & Hrun' & _ & Hsame' & _).
    rewrite Hrun'. cbn [snd]. f_equal. apply Hsame'.
    intros [Hf' Hr'].
    destruct (decide (available db ∧ collection db "restaurant" = [])) as [[Hf Hr]|Hn].
    + destruct (Hfresh Hf Hr) as (_ & _ & Hlen & _). by rewrite Hr' in Hlen.
    + rewrite (Hsame Hn) in Hf', Hr'. tauto.
Qed.

Lemma seed_idempotent_witness :
  ∃ db2 : Database,
    seed (seed (Some empty_db)).2 = (Respond ok_ack, Some db2) ∧
    length (collection db2 "restaurant") = 2%nat ∧
    length (collection db2 "menuitem") = 4%nat.
Proof.
  destruct seed_idempotent as (_ & _ & Htwice & _).
  apply (Htwice empty_db); reflexivity.
Defined.

(** ** Order placement *)

(** *** Identities as hexadecimal text *)

Lemma hex_byte (x : byte) :
  hex_value (hex_digit (Byte.to_N x / 16)) = Some (Byte.to_N x / 16)%N ∧
  hex_value (hex_digit (Byte.to_N x mod 16)) = Some (Byte.to_N x mod 16)%N ∧
  Byte.of_N (16 * (Byte.to_N x / 16) + Byte.to_N x mod 16) = Some x ∧
  is_space (hex_digit (Byte.to_N x / 16)) = false.
Proof. destruct x; repeat split; reflexivity. Qed.

Lemma fromhex_hexlify (b : list byte) : fromhex (hexlify b) = Some b.
Proof.
  induction b as [|x b IH]; [done|]. simpl.
  destruct (hex_byte x) as (-> & -> & Hx & ->). simpl. rewrite Hx. simpl.
  by rewrite IH.
Qed.




Lemma ObjectId_of_str_ok (py : Interpreter) (s : string) (o : ObjectId) :
  ObjectId_of_str py s = Ok o ↔ ObjectId_parse s = Some o.
Proof.
  unfold ObjectId_of_str. destruct (ObjectId_parse s); split; congruence.
Qed.

Lemma ObjectId_of_str_raise (py : Interpreter) (s : string) (e : exn) :
  ObjectId_of_str py s = Raise e → e = invalid_id py s ∧ malformed s.
Proof.
  unfold ObjectId_of_str, malformed.
  destruct (ObjectId_parse s); [done|]. by intros [= <-].
Qed.




(** *** Comprehensions *)

Lemma traverse_ok {A B} (f : A → result B) (l : list A) :
  Forall (λ a, ∃ b, f a = Ok b) l → ∃ bs, traverse f l = Ok bs ∧ Forall2 (λ a b, f a = Ok b) l bs.
Proof.
  induction 1 as [|a l [b Hb] _ (bs & IH & IH2)]; simpl.
  - by exists [].
  - exists (b :: bs). rewrite Hb, IH. split; [done|]. by constructor.
Qed.


(** *** Integers as floats

    A signed 64-bit integer converts to a finite float: the exponent that
    rounding settles on stays far below the largest one. *)

Lemma digits2_pos_bound (p : positive) (n : Z) :
  0 ≤ n → Zpos p < 2 ^ n → Zpos (digits2_pos p) ≤ n.
Proof.
  revert n. induction p as [p IH|p IH|]; intros n Hn Hp; simpl.
  - assert (0 < n) by (destruct (decide (n = 0)) as [->|]; [simpl in Hp; lia|lia]).
    replace n with (Z.succ (n - 1)) in Hp by lia. rewrite Z.pow_succ_r in Hp by lia.
    specialize (IH (n - 1)). lia.
  - assert (0 < n) by (destruct (decide (n = 0)) as [->|]; [simpl in Hp; lia|lia]).
    replace n with (Z.succ (n - 1)) in Hp by lia. rewrite Z.pow_succ_r in Hp by lia.
    specialize (IH (n - 1)). lia.
  - destruct (decide (n = 0)) as [->|]; [simpl in Hp; lia|lia].
Qed.

Lemma Zdigits2_bound (m n : Z) : 0 ≤ n → 0 ≤ m < 2 ^ n → Zdigits2 m ≤ n.
Proof.
  intros Hn [H0 Hm]. destruct m as [|p|p]; simpl; [lia| |lia].
  by apply digits2_pos_bound.
Qed.

Lemma shr_1_bound (mrs : shr_record) :
  0 ≤ shr_m mrs → 0 ≤ shr_m (shr_1 mrs) ≤ shr_m mrs.
Proof. destruct mrs as [[|[p|p|]|p] r s]; simpl; lia. Qed.

Lemma iter_shr_1_bound (p : positive) (mrs : shr_record) :
  0 ≤ shr_m mrs → 0 ≤ shr_m (SpecFloat.iter_pos shr_1 p mrs) ≤ shr_m mrs.
Proof.
  revert mrs. induction p as [p IH|p IH|]; intros mrs H; simpl.
  - pose proof (shr_1_bound mrs H) as H1.
    pose proof (IH (shr_1 mrs) (proj1 H1)) as H2.
    pose proof (IH _ (proj1 H2)). lia.
  - pose proof (IH mrs H) as H2. pose proof (IH _ (proj1 H2)). lia.
  - by apply shr_1_bound.
Qed.

Lemma fexp_eq (e : Z) : fexp Float.prec Float.emax e = Z.max (e - 53) (-1074).
Proof. reflexivity. Qed.

Lemma shr_fexp_bound (m e : Z) (l : location) (n : Z) :
  0 ≤ n → 0 ≤ m < 2 ^ n →
  let '(mrs, e') := shr_fexp Float.prec Float.emax m e l in
  0 ≤ shr_m mrs ≤ m ∧ e' ≤ Z.max (Z.max e (n + e - 53)) (-1074).
Proof.
  intros Hn Hm. unfold shr_fexp, shr.
  pose proof (Zdigits2_bound m n Hn Hm) as Hd.
  assert (shr_m (shr_record_of_loc m l) = m) as Hrec by (by destruct l as [|[]]).
  assert (fexp Float.prec Float.emax (Zdigits2 m + e) ≤ Z.max (Z.max e (n + e - 53)) (-1074)) as Hf.
  { rewrite fexp_eq. lia. }
  destruct (fexp Float.prec Float.emax (Zdigits2 m + e) - e) as [|k|k] eqn:Hk.
  - rewrite Hrec. lia.
  - pose proof (iter_shr_1_bound k (shr_record_of_loc m l)) as Hi.
    rewrite Hrec in Hi. split; [lia|].
    rewrite fexp_eq in *. lia.
  - rewrite Hrec. lia.
Qed.

Lemma round_nearest_even_bound (m : Z) (l : location) :
  0 ≤ m → 0 ≤ round_nearest_even m l ≤ m + 1.
Proof. intros H. destruct l as [|[]]; simpl; try lia. destruct (Z.even m); lia. Qed.

Lemma binary_round_aux_finite (s : bool) (m e : Z) (l : location) (n : Z) :
  0 ≤ n → 0 ≤ m < 2 ^ n → e ≤ 0 → 2 * n ≤ 1000 →
  Float.is_finite (binary_round_aux Float.prec Float.emax s m e l) = true.
Proof.
  intros Hn Hm He Hn'. unfold binary_round_aux.
  pose proof (shr_fexp_bound m e l n Hn Hm) as H1.
  destruct (shr_fexp Float.prec Float.emax m e l) as [mrs' e'].
  destruct H1 as [Hm1 He1].
  pose proof (round_nearest_even_bound (shr_m mrs') (loc_of_shr_record mrs') (proj1 Hm1)) as Hr.
  assert (2 ^ n < 2 ^ (n + 1)) as Hpow by (apply Z.pow_lt_mono_r; lia).
  pose proof (shr_fexp_bound (round_nearest_even (shr_m mrs') (loc_of_shr_record mrs')) e'
                loc_Exact (n + 1)) as H2.
  destruct (shr_fexp Float.prec Float.emax _ e' loc_Exact) as [mrs'' e''].
  destruct H2 as [Hm2 He2]; [lia|lia|].
  destruct (shr_m mrs'') as [|p|p]; [done| |lia].
  replace (e'' <=? Float.emax - Float.prec) with true; [done|].
  symmetry. apply Z.leb_le. unfold Float.emax, Float.prec. lia.
Qed.

Lemma iter_xO_bound (m d : positive) (a : Z) :
  0 ≤ a → Zpos m < 2 ^ a → Zpos (Pos.iter xO m d) < 2 ^ (a + Zpos d).
Proof.
  intros Ha Hm. induction d as [|d IH] using Pos.peano_ind.
  - simpl. rewrite Z.pow_add_r by lia. lia.
  - rewrite Pos.iter_succ, Pos2Z.inj_succ.
    replace (a + Z.succ (Zpos d)) with (Z.succ (a + Zpos d)) by lia.
    rewrite Z.pow_succ_r by lia. rewrite Pos2Z.inj_xO. lia.
Qed.

Lemma binary_round_finite (s : bool) (m : positive) :
  Zpos m < 2 ^ 63 → Float.is_finite (binary_round Float.prec Float.emax s m 0) = true.
Proof.
  intros Hm. unfold binary_round, shl_align.
  pose proof (digits2_pos_bound m 63 ltac:(lia) Hm) as Hd.
  rewrite fexp_eq.
  destruct (Z.max (Zpos (digits2_pos m) + 0 - 53) (-1074) - 0) as [|d|d] eqn:He.
  - apply (binary_round_aux_finite s (Zpos m) 0 loc_Exact 63); lia.
  - apply (binary_round_aux_finite s (Zpos m) 0 loc_Exact 63); lia.
  - apply (binary_round_aux_finite s _ _ loc_Exact (63 + Zpos d)); try lia.
    split; [lia|]. by apply iter_xO_bound.
Qed.

Lemma of_Z_finite (q : Z) :
  - 2 ^ 63 ≤ q < 2 ^ 63 → Float.is_finite (Float.of_Z q) = true.
Proof.
  intros Hq. unfold Float.of_Z, binary_normalize. destruct q as [|m|m].
  - done.
  - apply binary_round_finite. lia.
  - destruct (decide (Zpos m = 2 ^ 63)) as [Hm|Hm].
    + injection Hm as ->. vm_compute. reflexivity.
    + apply binary_round_finite. lia.
Qed.


(** *** The order loop *)

Lemma float_of_int_cases (z : Z) :
  (Float.is_finite (Float.of_Z z) = true ∧ float_of_int z = Ok (Float.of_Z z)) ∨
  (Float.is_finite (Float.of_Z z) = false ∧
   float_of_int z = Raise (OverflowError "int too large to convert to float")).
Proof. unfold float_of_int. destruct (Float.is_finite _); [left|right]; done. Qed.

Lemma order_loop_inv (pm : gmap string float) (its : list CartItem)
    (total : float) (items : list value) (total' : float) (items' : list value) :
  order_loop pm its total items = Ok (total', items') →
  items' = items ++ (line_value <$> snapshot pm its) ∧
  total' = foldl Float.add total (line_amount <$> snapshot pm its).
Proof.
  revert total items. induction its as [|i its IH]; intros total items; simpl.
  - intros [= <- <-]. by rewrite app_nil_r.
  - destruct (float_of_int_cases (quantity i)) as [[_ ->]|[_ ->]]; [|done].
    simpl. intros (-> & ->)%IH. by rewrite <- app_assoc.
Qed.

Lemma order_loop_ok (pm : gmap string float) (its : list CartItem)
    (total : float) (items : list value) :
  Forall (λ i, Float.is_finite (Float.of_Z (quantity i)) = true) its →
  order_loop pm its total items =
    Ok (foldl Float.add total (line_amount <$> snapshot pm its),
        items ++ (line_value <$> snapshot pm its)).
Proof.
  intros Hq. revert total items.
  induction Hq as [|i its Hi _ IH]; intros total items; simpl.
  - by rewrite app_nil_r.
  - destruct (float_of_int_cases (quantity i)) as [[_ ->]|[? _]]; [|congruence].
    simpl. rewrite IH. by rewrite <- app_assoc.
Qed.

Lemma snapshot_ids (pm : gmap string float) (its : list CartItem) :
  line_id <$> snapshot pm its = menuitem_id <$> its ∧
  line_quantity <$> snapshot pm its = quantity <$> its.
Proof. unfold snapshot. rewrite <- !list_fmap_compose. done. Qed.

(** *** The wire format *)

Lemma dict_encodable (d : dict) :
  bson_encodable (VDict d) = true ↔ map_Forall (λ _ v, bson_encodable v = true) d.
Proof.
  simpl.
  apply (map_fold_weak_ind
           (λ r m, r = true ↔ map_Forall (λ _ v, bson_encodable v = true) m)).
  - split; [intros _; apply map_Forall_empty|done].
  - intros k v m r Hk IH. rewrite andb_true_iff, IH.
    by rewrite map_Forall_insert.
Qed.

Lemma dict_of_encodable (kvs : list (string * value)) :
  Forall (λ kv, bson_encodable kv.2 = true) kvs →
  bson_encodable (VDict (dict_of kvs)) = true.
Proof.
  intros H. apply dict_encodable. unfold dict_of.
  generalize (map_Forall_empty (M:=gmap string) (λ (_ : string) v, bson_encodable v = true)).
  generalize (∅ : dict). induction H as [|[k v] kvs Hkv _ IH]; intros m Hm; [done|].
  simpl. apply IH. by apply map_Forall_insert_2.
Qed.

Lemma lines_encodable (ls : list line) :
  Forall (λ l, - 2 ^ 63 ≤ line_quantity l < 2 ^ 63) ls →
  forallb bson_encodable (line_value <$> ls) = true.
Proof.
  intros H. apply forallb_forall. intros v Hv.
  apply list_elem_of_In, list_elem_of_fmap in Hv as (l & -> & Hl).
  rewrite Forall_forall in H. specialize (H l Hl).
  unfold line_value, item_dict. apply dict_of_encodable.
  repeat constructor; simpl.
  apply andb_true_iff. split; [apply Z.leb_le|apply Z.ltb_lt]; lia.
Qed.

Lemma order_doc_encodable (payload : PlaceOrderRequest) (ls : list line) (total : float) :
  Forall (λ l, - 2 ^ 63 ≤ line_quantity l < 2 ^ 63) ls →
  bson_encodable (VDict (order_doc payload (line_value <$> ls) total)) = true.
Proof.
  intros H. unfold order_doc. apply dict_of_encodable.
  repeat constructor; simpl; try done.
  - by apply lines_encodable.
  - by destruct (notes payload).
Qed.

(** *** The price lookup *)

Section PriceLookup.

Variable py : Interpreter.

Lemma price_map_of_lookup (docs : list stored) (acc pm : gmap string float)
    (k : string) (p : float) :
  price_map_of py docs acc = Ok pm → pm !! k = Some p →
  acc !! k = Some p ∨
  ∃ d, d ∈ docs ∧ ObjectId_str (_id d) = k ∧
       py_float py (default (VInt 0) (fields d !! "price")) = Ok p.
Proof.
  revert acc. induction docs as [|d docs IH]; intros acc; simpl.
  - intros [= ->]. by left.
  - destruct (py_float _ _) as [price|e] eqn:Hp; [|done]. simpl.
    intros Hpm Hk. destruct (IH _ Hpm Hk) as [Hacc|(d' & Hd' & Hs & Hf)].
    + apply lookup_insert_Some in Hacc as [[<- <-]|[_ Hacc]].
      * right. exists d. split; [by left|done].
      * by left.
    + right. exists d'. split; [by right|done].
Qed.

Lemma price_map_of_ok (docs : list stored) (acc : gmap string float) :
  Forall (λ d, ∃ p, py_float py (default (VInt 0) (fields d !! "price")) = Ok p) docs →
  ∃ pm, price_map_of py docs acc = Ok pm.
Proof.
  intros H. revert acc. induction H as [|d docs [p Hp] _ IH]; intros acc; simpl.
  - eauto.
  - rewrite Hp. simpl. apply IH.
Qed.

End PriceLookup.

Lemma menu_docs_for_nil (db : Database) : menu_docs_for [] db = [].
Proof.
  unfold menu_docs_for. induction (collection db "menuitem") as [|d l IH]; [done|].
  rewrite filter_cons_False; [done|]. apply not_elem_of_nil.
Qed.

(** *** The handler, step by step *)

Section PlaceOrderFacts.

Variable py : Interpreter.

Lemma place_order_body_unfold (payload : PlaceOrderRequest) (db : Database) :
  place_order_body py payload db =
    match traverse (ObjectId_of_str py) (menuitem_id <$> items payload) with
    | Raise e => (Raise e, db)
    | Ok oids =>
        match fault db with
        | Some msg => (Raise (PyMongoError msg), db)
        | None =>
            match price_map_of py (menu_docs_for oids db) ∅ with
            | Raise e => (Raise e, db)
            | Ok pm =>
                match order_loop pm (items payload) Float.zero [] with
                | Raise e => (Raise e, db)
                | Ok (total, its) =>
                    (order_id ← Store.insert_one "order" (order_doc payload its total);
                     mret (order_ack order_id total)) db
                end
            end
        end
    end.
Proof.
  unfold place_order_body.
  destruct (traverse _ _) as [oids|e]; [|done].
  unfold mbind at 1, ST_bind at 1, lift at 1.
  destruct (fault db) as [msg|] eqn:Hf.
  - by erewrite bind_raise by (by apply fetch_fault).
  - erewrite bind_ok by (by apply fetch_id_in).
    destruct (price_map_of _ _ _) as [pm|e]; [|done].
    unfold mbind at 1, ST_bind at 1, lift at 1.
    destruct (order_loop _ _ _ _) as [[total its]|e]; [|done].
    reflexivity.
Qed.

(** What a successful placement did. *)
Lemma place_order_inv (payload : PlaceOrderRequest) (h h' : option Database) (resp : dict) :
  place_order py payload h = (Respond resp, h') →
  ∃ (db db' : Database) (oids : list ObjectId) (pm : gmap string float),
    h = Some db ∧ h' = Some db' ∧ available db ∧
    traverse (ObjectId_of_str py) (menuitem_id <$> items payload) = Ok oids ∧
    price_map_of py (menu_docs_for oids db) ∅ = Ok pm ∧
    let ls := snapshot pm (items payload) in
    let total := Float.sum (line_amount <$> ls) in
    let order_id := next_ObjectId db 0 in
    resp = order_ack order_id total ∧
    collection db' "order" =
      collection db "order" ++
        [{| _id := order_id; fields := order_doc payload (line_value <$> ls) total |}] ∧
    (∀ coll, "order" ≠ coll → collection db' coll = collection db coll).
Proof.
  intros (db & db' & -> & -> & Hb)%handler_respond_inv.
  rewrite place_order_body_unfold in Hb.
  destruct (traverse _ _) as [oids|e]; [|done].
  destruct (fault db) as [msg|] eqn:Hf; [done|].
  destruct (price_map_of _ _ _) as [pm|e] eqn:Hpm; [|done].
  destruct (order_loop _ _ _ _) as [[total its]|e] eqn:Hloop; [|done].
  apply order_loop_inv in Hloop as [-> ->]. simpl in Hb.
  destruct (insert_one_cases "order"
              (order_doc payload (line_value <$> snapshot pm (items payload))
                 (foldl Float.add Float.zero (line_amount <$> snapshot pm (items payload)))) db)
    as [(e & db1 & Hi & _)|(db1 & Hi & _ & _ & Hc & Hx)].
  - by erewrite bind_raise in Hb by exact Hi.
  - erewrite bind_ok in Hb by exact Hi. injection Hb as <- <-.
    exists db, db1, oids, pm. repeat split; done.
Qed.

(** When a placement succeeds. *)
Lemma place_order_ok (payload : PlaceOrderRequest) (db : Database)
    (oids : list ObjectId) (pm : gmap string float) :
  available db →
  traverse (ObjectId_of_str py) (menuitem_id <$> items payload) = Ok oids →
  price_map_of py (menu_docs_for oids db) ∅ = Ok pm →
  Forall (λ i, representable (quantity i)) (items payload) →
  let ls := snapshot pm (items payload) in
  let total := Float.sum (line_amount <$> ls) in
  let order_id := next_ObjectId db 0 in
  ∃ db',
    place_order py payload (Some db)
      = (Respond (order_ack order_id total), Some db') ∧
    collection db' "order" =
      collection db "order" ++
        [{| _id := order_id; fields := order_doc payload (line_value <$> ls) total |}] ∧
    (∀ coll, "order" ≠ coll → collection db' coll = collection db coll).
Proof.
  intros Hf Hoids Hpm Hq ls total order_id.
  assert (bson_encodable (VDict (order_doc payload (line_value <$> ls) total)) = true) as He.
  { apply order_doc_encodable. unfold ls, snapshot. rewrite Forall_fmap.
    eapply Forall_impl; [exact Hq|]. by intros i ?. }
  destruct (insert_one_ok "order" _ db Hf He) as (db' & Hi & _ & _ & Hc & Hx).
  exists db'. split; [|split; [exact Hc|exact Hx]].
  apply handler_ok. rewrite place_order_body_unfold, Hoids, Hf, Hpm.
  rewrite (order_loop_ok pm (items payload)).
  - simpl. by erewrite bind_ok by exact Hi.
  - eapply Forall_impl; [exact Hq|]. intros i Hrep. by apply of_Z_finite.
Qed.

End PlaceOrderFacts.

Lemma order_ack_fields (order_id : ObjectId) (total : float) :
  order_ack order_id total !! "id" = Some (VStr (ObjectId_str order_id)) ∧
  order_ack order_id total !! "total" = Some (VFloat (Float.round total 2)) ∧
  order_ack order_id total !! "status" = Some (VStr "placed").
Proof. unfold order_ack. repeat split; dict_lookup. Qed.

Lemma order_doc_fields (payload : PlaceOrderRequest) (its : list value) (total : float) :
  order_doc payload its total !! "items" = Some (VList its) ∧
  order_doc payload its total !! "total" = Some (VFloat (Float.round total 2)) ∧
  order_doc payload its total !! "status" = Some (VStr "placed").
Proof. unfold order_doc. repeat split; dict_lookup. Qed.

(** *** The total *)

Lemma demo_lines_total (A B : string) :
  lines_total [ {| line_id := A; line_quantity := 2; line_price := Float.of_Z 10 |};
                {| line_id := B; line_quantity := 1; line_price := Float.of_Z 5 |} ]
  = Float.of_Z 25.
Proof. vm_compute. reflexivity. Qed.

Lemma demo_order_run :
  let out := place_order sample_py
               (demo_request [ {| menuitem_id := id_A; quantity := 2 |};
                               {| menuitem_id := id_B; quantity := 1 |} ])
               (Some demo_db) in
  out.1 = Respond (order_ack (next_ObjectId demo_db 0) (Float.of_Z 25)) ∧
  order_ack (next_ObjectId demo_db 0) (Float.of_Z 25) !! "total" = Some (VFloat (Float.of_Z 25)) ∧
  (o ← last_order out.2; fields o !! "total") = Some (VFloat (Float.of_Z 25)) ∧
  (o ← last_order out.2; fields o !! "items")
    = Some (VList [ item_dict id_A 2 (Float.of_Z 10); item_dict id_B 1 (Float.of_Z 5) ]).
Proof. vm_compute. repeat split; reflexivity. Qed.

(** *** Rounding to two decimal places *)

Lemma div_half_even_spec (n d : Z) :
  0 ≤ n → 0 < d →
  2 * Z.abs (n - Float.div_half_even n d * d) ≤ d ∧
  (2 * Z.abs (n - Float.div_half_even n d * d) = d →
   Z.even (Float.div_half_even n d) = true).
Proof.
  intros Hn Hd. unfold Float.div_half_even.
  pose proof (Z.div_mod n d ltac:(lia)) as Hdm.
  pose proof (Z.mod_pos_bound n d Hd) as Hr.
  set (q := n / d) in *. set (r := n mod d) in *.
  destruct (Z.compare_spec (2 * r) d) as [Heq|Hlt|Hgt].
  - destruct (Z.even q) eqn:Hev.
    + split; [nia|done].
    + split; [nia|]. intros _. rewrite Z.even_add, Hev. reflexivity.
  - split; [nia|nia].
  - split; [nia|nia].
Qed.

Lemma div_half_even_nonneg (n d : Z) :
  0 ≤ n → 0 < d → 0 ≤ Float.div_half_even n d.
Proof.
  intros Hn Hd. unfold Float.div_half_even.
  pose proof (Z.div_pos n d Hn Hd) as Hq.
  set (q := n / d) in *.
  destruct (_ ?= _); [destruct (Z.even q)| |]; lia.
Qed.

Lemma round_hundredths (ls : list line) (s : bool) (m : positive) (e : Z) :
  Float.sum (line_amount <$> ls) = S754_finite s m e →
  ∃ k : Z, nearest_hundredths m e k ∧ lines_total ls = of_hundredths s k.
Proof.
  intros Hsum. unfold lines_total. rewrite Hsum. unfold Float.round.
  change (10 ^ Z.of_N 2) with 100. change (Z.to_pos 100) with 100%positive.
  destruct e as [|p|p].
  - exists (Zpos m * 2 ^ 0 * 100). split; [done|]. reflexivity.
  - exists (Zpos m * 2 ^ Zpos p * 100). split; [done|].
    assert (0 < Zpos m * 2 ^ Zpos p * 100) as Hpos.
    { pose proof (Z.pow_pos_nonneg 2 (Zpos p)). lia. }
    by destruct (Zpos m * 2 ^ Zpos p * 100) as [|q|q].
  - assert (0 < 2 ^ Zpos p) as Hd by (apply Z.pow_pos_nonneg; lia).
    pose proof (div_half_even_spec (Zpos m * 100) (2 ^ Zpos p) ltac:(lia) Hd) as [H1 H2].
    exists (Float.div_half_even (Zpos m * 100) (2 ^ Zpos p)). split; [by split|].
    pose proof (div_half_even_nonneg (Zpos m * 100) (2 ^ Zpos p) ltac:(lia) Hd) as Hq.
    by destruct (Float.div_half_even (Zpos m * 100) (2 ^ Zpos p)) as [|q|q].
Qed.

Lemma round_not_finite (ls : list line) :
  Float.is_finite (Float.sum (line_amount <$> ls)) = false →
  lines_total ls = Float.sum (line_amount <$> ls).
Proof. unfold lines_total. by destruct (Float.sum _). Qed.

Lemma rounding_runs :
  let total its := ack_total (place_order sample_py (tasting its) (Some tasting_db)).1 in
  let stored its :=
    o ← last_order (place_order sample_py (tasting its) (Some tasting_db)).2;
    fields o !! "total" in
  total [(1, 1)] = Some (VFloat (Float.lit 12 100)) ∧
  stored [(1, 1)] = Some (VFloat (Float.lit 12 100)) ∧
  total [(1, 3)] = Some (VFloat (Float.lit 38 100)) ∧
  total [(2, 1)] = Some (VFloat (Float.lit 267 100)) ∧
  stored [(2, 1)] = Some (VFloat (Float.lit 267 100)) ∧
  Float.add (Float.lit 1 10) (Float.lit 2 10) ≠ Float.lit 3 10 ∧
  total [(3, 1); (4, 1)] = Some (VFloat (Float.lit 3 10)).
Proof. vm_compute. repeat split; try reflexivity. discriminate. Qed.

(** C1: after a successful order placement the stored order has one line
    per requested line, in order, with the requested identity and quantity
    and a price that depends on the identity only ([0.0], or the price of a
    menu item whose identity prints as the line's); the stored total and the
    acknowledged total are the left-to-right sum of price times quantity over
    these lines, rounded to 2 decimal places.  Lines [(A, 2, 10.0)] and
    [(B, 1, 5.0)] total [25.0], as the run on [demo_db] shows.  A request
    without lines on an available store is not rejected: it stores an order
    with an empty [items] and total [0.0].  What the rounding returns: for a
    sum that is the finite float [m * 2^e], the float nearest to [k / 100]
    for the integer [k] nearest to a hundred times [m * 2^e], the even one
    in a halfway case; a sum that is not finite is left as it is.  The runs
    on [tasting_db] show it: [0.125] gives [0.12] and three times [0.125]
    gives [0.38], both halfway; [2.675] gives [2.67]; and [0.1 + 0.2], which
    is not the float [0.3], gives [0.3]. *)
Theorem place_order_total (py : Interpreter) :
  (∀ (payload : PlaceOrderRequest) (h h' : option Database) (resp : dict),
     place_order py payload h = (Respond resp, h') →
     ∃ (db db' : Database) (order : stored) (ls : list line),
       h = Some db ∧ h' = Some db' ∧
       collection db' "order" = collection db "order" ++ [order] ∧
       fields order !! "items" = Some (VList (line_value <$> ls)) ∧
       line_id <$> ls = menuitem_id <$> items payload ∧
       line_quantity <$> ls = quantity <$> items payload ∧
       (∀ l, l ∈ ls →
          line_price l = Float.zero ∨
          ∃ d, d ∈ collection db "menuitem" ∧ ObjectId_str (_id d) = line_id l ∧
               py_float py (default (VInt 0) (fields d !! "price"))
                 = Ok (line_price l)) ∧
       (∀ l1 l2, l1 ∈ ls → l2 ∈ ls → line_id l1 = line_id l2 →
                 line_price l1 = line_price l2) ∧
       fields order !! "total" = Some (VFloat (lines_total ls)) ∧
       resp !! "total" = Some (VFloat (lines_total ls))) ∧
  (∀ A B : string,
     lines_total [ {| line_id := A; line_quantity := 2; line_price := Float.of_Z 10 |};
                   {| line_id := B; line_quantity := 1; line_price := Float.of_Z 5 |} ]
     = Float.of_Z 25) ∧
  (let out := place_order sample_py
                (demo_request [ {| menuitem_id := id_A; quantity := 2 |};
                                {| menuitem_id := id_B; quantity := 1 |} ])
                (Some demo_db) in
   out.1 = Respond (order_ack (next_ObjectId demo_db 0) (Float.of_Z 25)) ∧
   order_ack (next_ObjectId demo_db 0) (Float.of_Z 25) !! "total"
     = Some (VFloat (Float.of_Z 25)) ∧
   (o ← last_order out.2; fields o !! "total") = Some (VFloat (Float.of_Z 25)) ∧
   (o ← last_order out.2; fields o !! "items")
     = Some (VList [ item_dict id_A 2 (Float.of_Z 10); item_dict id_B 1 (Float.of_Z 5) ])) ∧
  (∀ (payload : PlaceOrderRequest) (db : Database),
     available db → items payload = [] →
     ∃ (resp : dict) (db' : Database) (order : stored),
       place_order py payload (Some db) = (Respond resp, Some db') ∧
       resp !! "total" = Some (VFloat Float.zero) ∧
       collection db' "order" = collection db "order" ++ [order] ∧
       fields order !! "items" = Some (VList []) ∧
       fields order !! "total" = Some (VFloat Float.zero)) ∧
  (∀ (ls : list line) (s : bool) (m : positive) (e : Z),
     Float.sum (line_amount <$> ls) = S754_finite s m e →
     ∃ k : Z, nearest_hundredths m e k ∧ lines_total ls = of_hundredths s k) ∧
  (∀ ls : list line,
     Float.is_finite (Float.sum (line_amount <$> ls)) = false →
     lines_total ls = Float.sum (line_amount <$> ls)) ∧
  (let total its := ack_total (place_order sample_py (tasting its) (Some tasting_db)).1 in
   let stored its :=
     o ← last_order (place_order sample_py (tasting its) (Some tasting_db)).2;
     fields o !! "total" in
   total [(1, 1)] = Some (VFloat (Float.lit 12 100)) ∧
   stored [(1, 1)] = Some (VFloat (Float.lit 12 100)) ∧
   total [(1, 3)] = Some (VFloat (Float.lit 38 100)) ∧
   total [(2, 1)] = Some (VFloat (Float.lit 267 100)) ∧
   stored [(2, 1)] = Some (VFloat (Float.lit 267 100)) ∧
   Float.add (Float.lit 1 10) (Float.lit 2 10) ≠ Float.lit 3 10 ∧
   total [(3, 1); (4, 1)] = Some (VFloat (Float.lit 3 10))).
Proof.
  split; [|split; [exact demo_lines_total|split; [exact demo_order_run|split;
    [|split; [exact round_hundredths|split; [exact round_not_finite|exact rounding_runs]]]]]].
  - intros payload h h' resp
      (db & db' & oids & pm & -> & -> & _ & _ & Hpm & -> & Hc & _)%place_order_inv.
    set (ls := snapshot pm (items payload)) in *.
    eexists db, db', _, ls. split; [done|]. split; [done|]. split; [exact Hc|].
    simpl.
    destruct (order_ack_fields (next_ObjectId db 0) (Float.sum (line_amount <$> ls)))
      as (_ & -> & _).
    destruct (order_doc_fields payload (line_value <$> ls) (Float.sum (line_amount <$> ls)))
      as (-> & -> & _).
    destruct (snapshot_ids pm (items payload)) as [Hids Hqs].
    split; [done|]. split; [exact Hids|]. split; [exact Hqs|].
    split; [|split; [|done]].
    + intros l (i & -> & _)%list_elem_of_fmap. simpl.
      destruct (pm !! menuitem_id i) as [p|] eqn:Hp; [|by left]. right. simpl.
      destruct (price_map_of_lookup _ _ _ _ _ _ Hpm Hp) as [He|(d & Hd & Hs & Hf)].
      * by rewrite lookup_empty in He.
      * exists d. split; [|done].
        unfold menu_docs_for in Hd. by apply list_elem_of_filter in Hd as [_ ?].
    + intros l1 l2 (i1 & -> & _)%list_elem_of_fmap (i2 & -> & _)%list_elem_of_fmap.
      simpl. by intros ->.
  - intros payload db Hf Hits.
    destruct (place_order_ok py payload db [] ∅ Hf) as (db' & Hp & Hc & _).
    + by rewrite Hits.
    + by rewrite menu_docs_for_nil.
    + rewrite Hits. constructor.
    + rewrite Hits in Hp, Hc. simpl in Hp, Hc.
      eexists _, db', _. split; [exact Hp|]. split; [|split; [exact Hc|]].
      * unfold order_ack. dict_lookup.
      * simpl. unfold order_doc. split; dict_lookup.
Qed.

Lemma place_order_total_witness :
  let payload := tasting [(1, 1); (2, 1)] in
  let out := place_order sample_py payload (Some tasting_db) in
  let ack := order_ack (next_ObjectId tasting_db 0)
               (Float.add (Float.lit 125 1000) (Float.lit 2675 1000)) in
  out = (Respond ack, out.2) ∧
  ∃ ls : list line,
    line_quantity <$> ls = [1; 1] ∧
    ack !! "total" = Some (VFloat (lines_total ls)) ∧
    lines_total ls = Float.lit 28 10.
Proof.
  intros payload out ack.
  assert (out = (Respond ack, out.2)) as Hout by (vm_compute; reflexivity).
  split; [exact Hout|].
  destruct (proj1 (place_order_total sample_py) payload (Some tasting_db) out.2 _ Hout)
    as (db & db' & order & ls & _ & _ & _ & _ & _ & Hqs & _ & _ & _ & Htotal).
  exists ls. split; [exact Hqs|]. split; [exact Htotal|].
  assert (ack !! "total" = Some (VFloat (Float.lit 28 10))) as Hack
    by (vm_compute; reflexivity).
  rewrite Hack in Htotal. by injection Htotal as <-.
Defined.

(** C2: the run that breaks it.  One line [(A, -1)] on [demo_db], where [A]
    costs [10.0], is accepted; the stored and the acknowledged total are
    [-10.0], which is below zero and fails the bound [ge=0] that [Order.total]
    declares. *)
Theorem negative_quantity_negative_total :
  let out := place_order sample_py
               (demo_request [ {| menuitem_id := id_A; quantity := -1 |} ])
               (Some demo_db) in
  out.1 = Respond (order_ack (next_ObjectId demo_db 0) (Float.of_Z (-10))) ∧
  order_ack (next_ObjectId demo_db 0) (Float.of_Z (-10)) !! "total"
    = Some (VFloat (Float.of_Z (-10))) ∧
  (o ← last_order out.2; fields o !! "total") = Some (VFloat (Float.of_Z (-10))) ∧
  (o ← last_order out.2; fields o !! "items")
    = Some (VList [ item_dict id_A (-1) (Float.of_Z 10) ]) ∧
  Float.ltb (Float.of_Z (-10)) Float.zero = true ∧
  schemas.Order_total (Some (Float.of_Z (-10))) = false.
Proof. vm_compute. repeat split; reflexivity. Qed.

(** *** The acknowledgment *)

(** C10: after a successful order placement the acknowledgment and the
    order document just stored agree: the acknowledgment's ["id"] is the
    string form of the document's identity, both carry the same ["total"],
    a [round(total, 2)], and both carry the status ["placed"]. *)
Theorem place_order_ack_matches_persisted (py : Interpreter)
    (payload : PlaceOrderRequest) (h h' : option Database) (resp : dict) :
  place_order py payload h = (Respond resp, h') →
  ∃ (db db' : Database) (order : stored) (total : float),
    h = Some db ∧ h' = Some db' ∧
    collection db' "order" = collection db "order" ++ [order] ∧
    resp !! "id" = Some (VStr (ObjectId_str (_id order))) ∧
    resp !! "total" = Some (VFloat (Float.round total 2)) ∧
    fields order !! "total" = Some (VFloat (Float.round total 2)) ∧
    resp !! "status" = Some (VStr "placed") ∧
    fields order !! "status" = Some (VStr "placed").
Proof.
  intros (db & db' & oids & pm & -> & -> & _ & _ & _ & -> & Hc & _)%place_order_inv.
  eexists db, db', _, _. split; [done|]. split; [done|]. split; [exact Hc|].
  simpl.
  destruct (order_ack_fields (next_ObjectId db 0)
              (Float.sum (line_amount <$> snapshot pm (items payload)))) as (-> & -> & ->).
  destruct (order_doc_fields payload (line_value <$> snapshot pm (items payload))
              (Float.sum (line_amount <$> snapshot pm (items payload)))) as (_ & -> & ->).
  done.
Qed.

Lemma place_order_ack_matches_persisted_witness :
  let payload := demo_request [ {| menuitem_id := id_A; quantity := 2 |};
                                {| menuitem_id := id_B; quantity := 1 |} ] in
  let out := place_order sample_py payload (Some demo_db) in
  out = (Respond (order_ack (next_ObjectId demo_db 0) (Float.of_Z 25)), out.2) ∧
  ∃ (order : stored) (total : float),
    order_ack (next_ObjectId demo_db 0) (Float.of_Z 25) !! "total"
      = Some (VFloat (Float.round total 2)) ∧
    fields order !! "total" = Some (VFloat (Float.round total 2)) ∧
    fields order !! "status" = Some (VStr "placed").
Proof.
  intros payload out.
  assert (out = (Respond (order_ack (next_ObjectId demo_db 0) (Float.of_Z 25)), out.2))
    as Hout by (vm_compute; reflexivity).
  split; [exact Hout|].
  destruct (place_order_ack_matches_persisted sample_py payload
              (Some demo_db) out.2 _ Hout)
    as (db & db' & order & total & _ & _ & _ & _ & Hr & Ho & _ & Hs).
  exists order, total. split; [exact Hr|]. split; [exact Ho|exact Hs].
Defined.

(** *** Unknown and malformed identities *)





(** ** The diagnostic route *)

Lemma list_collection_names_cases (db : Database) :
  match fault db with
  | Some msg => (Store.list_collection_names db).1 = Raise (PyMongoError msg)
  | None => ∃ names, (Store.list_collection_names db).1 = Ok names
  end.
Proof.
  unfold Store.list_collection_names, Store.round_trip, get, mbind, ST_bind.
  destruct (fault db); simpl; eauto.
Qed.

(** C9: for every environment and every handle -- none, a store that
    answers, a store that raises -- the diagnostic route returns its report:
    a failing store shows as the ["database"] text, with the exception's text
    cut to 50 characters, and a missing handle as "not initialized". *)
Theorem test_database_never_fails (env : gmap string string) (h : option Database) :
  ∃ resp : dict,
    test_database env h = Ok resp ∧
    resp !! "backend" = Some (VStr "✅ Running") ∧
    resp !! "database" =
      Some (VStr match h with
                 | None => "⚠️  Available but not initialized"
                 | Some db =>
                     match fault db with
                     | Some msg => "⚠️  Connected but Error: " +:+ str_prefix 50 msg
                     | None => "✅ Connected & Working"
                     end
                 end) ∧
    resp !! "connection_status" =
      Some (VStr match h with
                 | Some _ => "Connected"
                 | None => "Not Connected"
                 end) ∧
    (∃ names : list string,
       resp !! "collections" = Some (VList (VStr <$> names)) ∧ (length names ≤ 10)%nat).
Proof.
  unfold test_database.
  destruct h as [db|].
  - pose proof (list_collection_names_cases db) as Hl.
    destruct (fault db) as [msg|].
    + unfold try_except, setitem, lift, mbind at 1 2 3 4 5, ST_bind. simpl.
      rewrite Hl. simpl. eexists. split; [reflexivity|].
      split; [dict_lookup|]. split; [dict_lookup|]. split; [dict_lookup|].
      exists []. split; [dict_lookup|simpl; lia].
    + destruct Hl as [names Hl].
      unfold try_except, setitem, lift, mbind at 1 2 3 4 5, ST_bind. simpl.
      rewrite Hl. simpl. eexists. split; [reflexivity|].
      split; [dict_lookup|]. split; [dict_lookup|]. split; [dict_lookup|].
      exists (take 10 names). split; [dict_lookup|rewrite length_take; lia].
  - unfold try_except, setitem. simpl. eexists. split; [reflexivity|].
    split; [dict_lookup|]. split; [dict_lookup|]. split; [dict_lookup|].
    exists []. split; [dict_lookup|simpl; lia].
Qed.

(** * Further properties *)

(** ** What [serialize_doc] does to any document *)

Lemma serialize_doc_other_field (doc : dict) (k : string) :
  k ≠ "id" → k ≠ "_id" → serialize_doc doc !! k = doc !! k.
Proof.
  intros H1 H2. unfold serialize_doc.
  destruct (decide _); [done|].
  destruct (doc !! "_id") as [[]|]; try done.
  rewrite lookup_delete_ne by done. by rewrite lookup_insert_ne.
Qed.

Lemma serialize_doc_unchanged (doc : dict) :
  (∀ o, doc !! "_id" ≠ Some (VOid o)) → serialize_doc doc = doc.
Proof.
  intros H. unfold serialize_doc.
  destruct (decide _); [done|].
  destruct (doc !! "_id") as [[]|] eqn:E; try done. by destruct (H o).
Qed.

(** X2: [serialize_doc] touches the fields ["id"] and ["_id"] only; it leaves
    a document whose ["_id"] is missing or is not a store-native identifier
    exactly as it was (its raw ["_id"] stays); it overwrites an ["id"] field
    the document already had; and applying it twice is the same as applying
    it once. *)
Theorem serialize_doc_shape (doc : dict) :
  (∀ k, k ≠ "id" → k ≠ "_id" → serialize_doc doc !! k = doc !! k) ∧
  ((∀ o, doc !! "_id" ≠ Some (VOid o)) → serialize_doc doc = doc) ∧
  (∀ o, doc !! "_id" = Some (VOid o) →
        serialize_doc doc = <["id" := VStr (ObjectId_str o)]> (delete "_id" doc)) ∧
  serialize_doc (serialize_doc doc) = serialize_doc doc.
Proof.
  split; [intros k; apply serialize_doc_other_field|].
  split; [apply serialize_doc_unchanged|].
  assert (∀ o, doc !! "_id" = Some (VOid o) →
            serialize_doc doc = <["id" := VStr (ObjectId_str o)]> (delete "_id" doc)) as Hnat.
  { intros o Ho. unfold serialize_doc.
    destruct (decide _) as [->|_]; [by rewrite lookup_empty in Ho|].
    rewrite Ho. by rewrite delete_insert_ne. }
  split; [exact Hnat|].
  destruct (doc !! "_id") as [v|] eqn:E.
  - destruct v as [| | | | |o| |];
      try (by rewrite !(serialize_doc_unchanged doc) by (intros ?; congruence)).
    apply serialize_doc_unchanged. intros o'.
    rewrite (Hnat o) by done.
    rewrite lookup_insert_ne by done. by rewrite lookup_delete_eq.
  - by rewrite !(serialize_doc_unchanged doc) by (intros ?; congruence).
Qed.

(** ** What the routes do to the store *)

Lemma reads_bind {A B} (m : ST Database A) (f : A → ST Database B) :
  reads m → (∀ a, reads (f a)) → reads (m ≫= f).
Proof.
  intros Hm Hf db. unfold mbind, ST_bind. specialize (Hm db).
  destruct (m db) as [[a|e] db1]; simpl in *; subst; [apply Hf|done].
Qed.

Lemma reads_fetch (c : Store.Cursor) : reads (Store.fetch c).
Proof.
  unfold Store.fetch. apply reads_bind; [|intros _; apply reads_bind; [|intros _]].
  - intros db. unfold Store.round_trip. by destruct (fault db).
  - intros db. unfold Store.encode, lift. done.
  - done.
Qed.

Lemma reads_handler {A} (body : ST Database A) (h : option Database) :
  reads body → (handler body h).2 = h.
Proof.
  intros Hb. unfold handler. destruct h as [db|]; [|done].
  specialize (Hb db). destruct (body db) as [r db']. simpl in *. by subst.
Qed.

Lemma reads_listing (c : Store.Cursor) (h : option Database) :
  (handler (docs ← Store.fetch c; mret (serialize_doc ∘ document <$> docs)) h).2 = h.
Proof. apply reads_handler, reads_bind; [apply reads_fetch|done]. Qed.

(** X3: the routes that only read -- the liveness route, the three listing
    routes and the diagnostic route -- return the store handle they were
    given, whatever the request, the state of the store and the outcome. *)
Theorem read_routes_leave_store (py : Interpreter)
    (env : gmap string string) (r : request) (h : option Database) :
  is_read r = true → (serve py env r h).2 = h.
Proof.
  destruct r as [| | |rid|payload|limit|]; simpl; try done; intros _.
  - pose proof (reads_listing (Store.limit 50 (Store.find "restaurant" Store.all)) h) as H.
    fold list_restaurants in H. by destruct (list_restaurants h).
  - pose proof (reads_listing
                  (Store.limit 200 (Store.find "menuitem"
                                      (Store.field_is "restaurant_id" rid))) h) as H.
    fold (get_menu rid) in H. by destruct (get_menu rid h).
  - pose proof (reads_listing
                  (Store.limit (default 20 limit)
                     (Store.sort (-1) (Store.find "order" Store.all))) h) as H.
    fold (list_orders limit) in H. by destruct (list_orders limit h).
Qed.

Lemma read_routes_leave_store_witness :
  (serve sample_py ∅ (GET_orders (Some 0)) (Some two_orders_db)).2 = Some two_orders_db.
Proof. by apply read_routes_leave_store. Defined.

Lemma grown_from_refl (db : Database) : grown_from db db.
Proof. by repeat split. Qed.

Lemma grown_from_trans (db1 db2 db3 : Database) :
  grown_from db1 db2 → grown_from db2 db3 → grown_from db1 db3.
Proof.
  intros (Hf1 & Hn1 & Hc1) (Hf2 & Hn2 & Hc2). repeat split; try congruence.
  intros coll. etrans; [apply Hc1|apply Hc2].
Qed.

Lemma grows_bind {A B} (m : ST Database A) (f : A → ST Database B) :
  grows m → (∀ a, grows (f a)) → grows (m ≫= f).
Proof.
  intros Hm Hf db. unfold mbind, ST_bind. specialize (Hm db).
  destruct (m db) as [[a|e] db1]; simpl in *; [|done].
  eapply grown_from_trans; [exact Hm|apply Hf].
Qed.

Lemma grows_reads {A} (m : ST Database A) : reads m → grows m.
Proof. intros H db. rewrite H. apply grown_from_refl. Qed.

Lemma reads_round_trip : reads Store.round_trip.
Proof. intros db. unfold Store.round_trip. by destruct (fault db). Qed.

Lemma grows_new_ObjectId : grows Store.new_ObjectId.
Proof. intros db. by repeat split. Qed.

Lemma grows_append (coll : string) (ds : list stored) : grows (Store.append coll ds).
Proof.
  intros db. unfold Store.append, get, put, mbind, ST_bind. simpl.
  repeat split. intros coll'. destruct (decide (coll = coll')) as [<-|Hne].
  - rewrite collection_set_eq. by apply prefix_app_r.
  - by rewrite collection_set_ne.
Qed.

Lemma grows_insert_one (coll : string) (doc : dict) : grows (Store.insert_one coll doc).
Proof.
  unfold Store.insert_one.
  apply grows_bind; [apply grows_new_ObjectId|intros oid].
  apply grows_bind; [apply grows_reads, reads_round_trip|intros _].
  apply grows_bind; [by apply grows_reads|intros _].
  apply grows_bind; [apply grows_append|intros _]. by apply grows_reads.
Qed.

Lemma grows_assign_ids (docs : list dict) : grows (Store.assign_ids docs).
Proof.
  induction docs as [|doc docs IH]; simpl; [by apply grows_reads|].
  apply grows_bind; [apply grows_new_ObjectId|intros oid].
  apply grows_bind; [exact IH|intros ds]. by apply grows_reads.
Qed.

Lemma grows_insert_many (coll : string) (docs : list dict) :
  grows (Store.insert_many coll docs).
Proof.
  unfold Store.insert_many.
  apply grows_bind; [apply grows_assign_ids|intros ds].
  apply grows_bind; [apply grows_reads, reads_round_trip|intros _].
  apply grows_bind; [by apply grows_reads|intros _]. apply grows_append.
Qed.

Lemma grows_seed_body : grows seed_body.
Proof.
  unfold seed_body.
  apply grows_bind; [|intros n; apply grows_bind; [|intros _; by apply grows_reads]].
  - apply grows_reads. unfold Store.count_documents.
    apply reads_bind; [apply reads_round_trip|intros _]. by apply reads_bind.
  - destruct (decide (n = 0)); [|by apply grows_reads].
    apply grows_bind; [apply grows_insert_one|intros r1].
    apply grows_bind; [apply grows_insert_one|intros r2]. apply grows_insert_many.
Qed.

Lemma grows_place_order_body (py : Interpreter)
    (payload : PlaceOrderRequest) : grows (place_order_body py payload).
Proof.
  unfold place_order_body.
  apply grows_bind; [by apply grows_reads|intros oids].
  apply grows_bind; [apply grows_reads, reads_fetch|intros menu_docs].
  apply grows_bind; [by apply grows_reads|intros pm].
  apply grows_bind; [by apply grows_reads|intros [total its]].
  apply grows_bind; [apply grows_insert_one|intros oid]. by apply grows_reads.
Qed.

Lemma grows_handler {A} (body : ST Database A) (h : option Database) :
  grows body → handle_grown_from h (handler body h).2.
Proof.
  intros Hb. unfold handler. destruct h as [db|]; [|done].
  specialize (Hb db). by destruct (body db) as [r db'].
Qed.

Lemma handle_grown_from_refl (h : option Database) : handle_grown_from h h.
Proof. destruct h; [apply grown_from_refl|done]. Qed.

Lemma handle_grown_from_trans (h1 h2 h3 : option Database) :
  handle_grown_from h1 h2 → handle_grown_from h2 h3 → handle_grown_from h1 h3.
Proof.
  destruct h1, h2, h3; simpl; try done. apply grown_from_trans.
Qed.

Lemma serve_grows (py : Interpreter) (env : gmap string string)
    (r : request) (h : option Database) :
  handle_grown_from h (serve py env r h).2.
Proof.
  destruct (is_read r) eqn:Hr.
  - rewrite read_routes_leave_store by done. apply handle_grown_from_refl.
  - destruct r as [| | |rid|payload|limit|]; try done; simpl.
    + pose proof (grows_handler seed_body h grows_seed_body) as H.
      fold seed in H. by destruct (seed h).
    + pose proof (grows_handler _ h (grows_place_order_body py payload)) as H.
      fold (place_order py payload) in H.
      by destruct (place_order py payload h).
Qed.

(** X4: whatever sequence of requests is served, the store only grows:
    every collection still starts with the documents it held before, in the
    same order and unchanged -- no route removes, reorders or rewrites a
    stored document (an order's line prices stay what they were when it was
    placed) -- and a missing handle stays missing. *)
Theorem store_only_grows (py : Interpreter)
    (env : gmap string string) (rs : list request) (h : option Database) :
  handle_grown_from h (run py env rs h).
Proof.
  revert h. induction rs as [|r rs IH]; intros h; simpl.
  - apply handle_grown_from_refl.
  - eapply handle_grown_from_trans; [apply serve_grows|apply IH].
Qed.

(** ** A store that cannot be used *)

Lemma traverse_raise_inv {A B} (f : A → result B) (l : list A) (e : exn) :
  traverse f l = Raise e → ∃ a, a ∈ l ∧ f a = Raise e.
Proof.
  induction l as [|a l IH]; simpl; [done|].
  destruct (f a) as [b|e'] eqn:Ha.
  - simpl. destruct (traverse f l) as [bs|e'']; simpl; [done|].
    intros [= ->]. destruct IH as (a' & Hin & Ha'); [done|].
    exists a'. split; [by right|done].
  - simpl. intros [= ->]. exists a. split; [by left|done].
Qed.

Lemma listing_fault (c : Store.Cursor) (db : Database) (msg : string) :
  fault db = Some msg →
  handler (docs ← Store.fetch c; mret (serialize_doc ∘ document <$> docs)) (Some db)
    = (HTTPException 500 msg, Some db).
Proof.
  intros Hf. apply (handler_raise _ _ _ (PyMongoError msg)).
  by erewrite bind_raise by (by apply fetch_fault).
Qed.

Lemma place_order_fault (py : Interpreter)
    (payload : PlaceOrderRequest) (db : Database) (msg : string) :
  fault db = Some msg →
  ∃ detail,
    place_order py payload (Some db) = (HTTPException 500 detail, Some db) ∧
    (detail = msg ∨
     ∃ i, i ∈ items payload ∧ malformed (menuitem_id i) ∧
          detail = str_exn (invalid_id py (menuitem_id i))).
Proof.
  intros Hf.
  destruct (traverse (ObjectId_of_str py) (menuitem_id <$> items payload))
    as [oids|e] eqn:Ht.
  - exists msg. split; [|by left].
    apply (handler_raise _ _ _ (PyMongoError msg)).
    by rewrite place_order_body_unfold, Ht, Hf.
  - destruct (traverse_raise_inv _ _ _ Ht) as (s & Hs & Hr).
    apply list_elem_of_fmap in Hs as (i & -> & Hi).
    apply ObjectId_of_str_raise in Hr as [-> Hm].
    eexists. split; [|right; exists i; done].
    apply handler_raise. by rewrite place_order_body_unfold, Ht.
Qed.

(** X5: a store-backed route that finds no store handle answers 500 with
    Python's text for subscripting [None]; one that finds the store failing
    answers 500 with the failure's text -- or, placing an order, with the
    complaint about a malformed identity, which is checked first -- and in
    either case the store is left exactly as it was. *)
Theorem unusable_store_is_500 (py : Interpreter)
    (env : gmap string string) (r : request) :
  uses_store r = true →
  serve py env r None
    = (Error 500 "'NoneType' object is not subscriptable", None) ∧
  ∀ db msg, fault db = Some msg →
    ∃ detail,
      serve py env r (Some db) = (Error 500 detail, Some db) ∧
      (detail = msg ∨
       ∃ payload i, r = POST_orders payload ∧ i ∈ items payload ∧
         malformed (menuitem_id i) ∧
         detail = str_exn (invalid_id py (menuitem_id i))).
Proof.
  intros Hr. split; [by destruct r as [| | |rid|payload|limit|]|].
  intros db msg Hf. destruct r as [| | |rid|payload|limit|]; try done; unfold serve.
  - exists msg. split; [|by left].
    assert (seed (Some db) = (HTTPException 500 msg, Some db)) as ->; [|done].
    apply (handler_raise _ _ _ (PyMongoError msg)). by apply seed_body_fault.
  - exists msg. split; [|by left].
    assert (list_restaurants (Some db) = (HTTPException 500 msg, Some db)) as ->; [|done].
    by apply listing_fault.
  - exists msg. split; [|by left].
    assert (get_menu rid (Some db) = (HTTPException 500 msg, Some db)) as ->;
      [|done].
    by apply listing_fault.
  - destruct (place_order_fault py payload db msg Hf) as (detail & -> & Hd).
    exists detail. split; [done|].
    destruct Hd as [->|(i & Hi & Hm & ->)]; [by left|].
    right. exists payload, i. repeat split; assumption || reflexivity.
  - exists msg. split; [|by left].
    assert (list_orders limit (Some db) = (HTTPException 500 msg, Some db)) as ->; [|done].
    by apply listing_fault.
Qed.

Lemma unusable_store_is_500_witness :
  uses_store (POST_orders (demo_request [])) = true ∧
  serve sample_py ∅ (POST_orders (demo_request [])) (Some down_db)
    = (Error 500 "connection refused", Some down_db).
Proof.
  split; [reflexivity|].
  destruct (unusable_store_is_500 sample_py ∅ (POST_orders (demo_request []))
              eq_refl) as [_ H].
  destruct (H down_db "connection refused" eq_refl) as (detail & -> & Hd).
  destruct Hd as [->|(payload & i & [= <-] & Hi & _)]; [done|].
  by apply elem_of_nil in Hi.
Defined.

(** ** Quantities the store cannot hold *)

Lemma order_loop_cases (pm : gmap string float) (its : list CartItem)
    (total : float) (items : list value) :
  (Forall (λ i, Float.is_finite (Float.of_Z (quantity i)) = true) its ∧
   order_loop pm its total items =
     Ok (foldl Float.add total (line_amount <$> snapshot pm its),
         items ++ (line_value <$> snapshot pm its))) ∨
  (Exists (λ i, Float.is_finite (Float.of_Z (quantity i)) = false) its ∧
   order_loop pm its total items =
     Raise (OverflowError "int too large to convert to float")).
Proof.
  revert total items. induction its as [|i its IH]; intros total items.
  - left. split; [constructor|]. simpl. by rewrite app_nil_r.
  - simpl. destruct (float_of_int_cases (quantity i)) as [[Hfin ->]|[Hinf ->]].
    + simpl.
      destruct (IH (Float.add total
                      (Float.mul (default Float.zero (pm !! menuitem_id i))
                         (Float.of_Z (quantity i))))
                   (items ++ [item_dict (menuitem_id i) (quantity i)
                                (default Float.zero (pm !! menuitem_id i))]))
        as [[Hall ->]|[Hex ->]].
      * left. split; [by constructor|]. by rewrite <- app_assoc.
      * right. split; [by apply Exists_cons_tl|done].
    + right. split; [by apply Exists_cons_hd|done].
Qed.

Lemma line_quantity_field (mid : string) (q : Z) (p : float) :
  dict_of [("menuitem_id", VStr mid); ("quantity", VInt q); ("price", VFloat p)]
    !! "quantity" = Some (VInt q).
Proof. dict_lookup. Qed.

Lemma order_doc_not_encodable (payload : PlaceOrderRequest) (ls : list line)
    (total : float) :
  Exists (λ l, ¬ representable (line_quantity l)) ls →
  bson_encodable (VDict (order_doc payload (line_value <$> ls) total)) = false.
Proof.
  intros Hex. apply not_true_is_false. intros He.
  apply dict_encodable in He.
  destruct (order_doc_fields payload (line_value <$> ls) total) as (Hitems & _).
  apply (He _ _) in Hitems. simpl in Hitems.
  rewrite forallb_forall in Hitems.
  apply Exists_exists in Hex as (l & Hl & Hq). apply Hq.
  specialize (Hitems (line_value l)).
  assert (bson_encodable (line_value l) = true) as Hline.
  { apply Hitems, list_elem_of_In, list_elem_of_fmap. exists l. split; [reflexivity|exact Hl]. }
  unfold line_value, item_dict in Hline. apply dict_encodable in Hline.
  pose proof (line_quantity_field (line_id l) (line_quantity l) (line_price l)) as Hlook.
  apply (Hline _ _) in Hlook. simpl in Hlook.
  apply andb_true_iff in Hlook as [H1%Z.leb_le H2%Z.ltb_lt].
  unfold representable. lia.
Qed.

Lemma insert_one_not_encodable (coll : string) (doc : dict) (db : Database) :
  available db → bson_encodable (VDict doc) = false →
  ∃ db', Store.insert_one coll doc db
           = (Raise (OverflowError "MongoDB can only handle up to 8-byte ints"), db') ∧
         collections db' = collections db.
Proof.
  intros Hf He. unfold Store.insert_one.
  destruct (new_ObjectId_run db) as (db1 & Hn & Hf1 & Hc1 & _).
  exists db1. erewrite bind_ok by exact Hn.
  unfold Store.round_trip, Store.encode, lift, mbind, ST_bind.
  by rewrite Hf1, Hf, He.
Qed.

(** X6: on a store that answers, with well-formed identities and numeric
    menu prices, a request in which some quantity is not a signed 64-bit
    integer is answered 500 and stores nothing.  The text is Python's
    complaint about the conversion to [float] when some quantity is too
    large even for that, and the store client's complaint about 8-byte
    integers otherwise. *)
Theorem oversized_quantity_is_500 (py : Interpreter)
    (payload : PlaceOrderRequest) (db : Database) :
  available db →
  Forall (λ i, well_formed (menuitem_id i)) (items payload) →
  Forall (λ d, ∃ p, py_float py (default (VInt 0) (fields d !! "price")) = Ok p)
         (collection db "menuitem") →
  Exists (λ i, ¬ representable (quantity i)) (items payload) →
  ∃ (detail : string) (db' : Database),
    place_order py payload (Some db) = (HTTPException 500 detail, Some db') ∧
    collections db' = collections db ∧
    (Exists (λ i, Float.is_finite (Float.of_Z (quantity i)) = false) (items payload) →
     detail = "int too large to convert to float") ∧
    (Forall (λ i, Float.is_finite (Float.of_Z (quantity i)) = true) (items payload) →
     detail = "MongoDB can only handle up to 8-byte ints").
Proof.
  intros Hf Hwf Hprices Hq.
  destruct (traverse_ok (ObjectId_of_str py) (menuitem_id <$> items payload))
    as (oids & Hoids & _).
  { rewrite Forall_fmap. eapply Forall_impl; [exact Hwf|].
    intros i [o Ho]. exists o. by apply ObjectId_of_str_ok. }
  destruct (price_map_of_ok py (menu_docs_for oids db) ∅) as [pm Hpm].
  { apply Forall_forall. intros d [_ Hd]%list_elem_of_filter.
    rewrite Forall_forall in Hprices. by apply Hprices. }
  destruct (order_loop_cases pm (items payload) Float.zero []) as [[Hall Hl]|[Hex Hl]].
  - set (total := foldl Float.add Float.zero (line_amount <$> snapshot pm (items payload))) in *.
    destruct (insert_one_not_encodable "order"
                (order_doc payload (line_value <$> snapshot pm (items payload)) total) db Hf)
      as (db' & Hi & Hc).
    { apply order_doc_not_encodable. unfold snapshot. rewrite Exists_fmap.
      eapply Exists_impl; [exact Hq|]. by intros i ?. }
    eexists _, db'. split; [|split; [exact Hc|split]].
    + apply (handler_raise _ _ _ (OverflowError "MongoDB can only handle up to 8-byte ints")).
      rewrite place_order_body_unfold, Hoids, Hf, Hpm, Hl. simpl.
      by erewrite bind_raise by exact Hi.
    + intros Hex. exfalso. apply Exists_exists in Hex as (i & Hi' & Hinf).
      rewrite Forall_forall in Hall. specialize (Hall i Hi'). congruence.
    + done.
  - eexists _, db. split; [|split; [done|split]].
    + apply (handler_raise _ _ _ (OverflowError "int too large to convert to float")).
      by rewrite place_order_body_unfold, Hoids, Hf, Hpm, Hl.
    + done.
    + intros Hall. exfalso. apply Exists_exists in Hex as (i & Hi' & Hinf).
      rewrite Forall_forall in Hall. specialize (Hall i Hi'). congruence.
Qed.

Lemma oversized_quantity_is_500_witness :
  let payload := demo_request [ {| menuitem_id := id_A; quantity := 2 ^ 63 |} ] in
  ∃ db',
    place_order sample_py payload (Some demo_db)
      = (HTTPException 500 "MongoDB can only handle up to 8-byte ints", Some db') ∧
    collections db' = collections demo_db.
Proof.
  intros payload.
  destruct (oversized_quantity_is_500 sample_py payload demo_db)
    as (detail & db' & Hp & Hc & _ & Hd).
  - reflexivity.
  - constructor; [|constructor]. eexists. vm_compute. reflexivity.
  - constructor; [|constructor; [|constructor]]; eexists; vm_compute; reflexivity.
  - apply Exists_cons_hd. unfold representable. simpl. lia.
  - exists db'. rewrite Hd in Hp; [split; [exact Hp|exact Hc]|].
    constructor; [|constructor]. vm_compute. reflexivity.
Defined.

(** ** Which price a line gets *)

Lemma ObjectId_str_inj (o o' : ObjectId) : ObjectId_str o = ObjectId_str o' → o = o'.
Proof.
  unfold ObjectId_str. intros H.
  assert (fromhex (hexlify (binary o)) = fromhex (hexlify (binary o'))) as H' by by rewrite H.
  rewrite !fromhex_hexlify in H'. destruct o, o'. simpl in *. congruence.
Qed.


Section PriceOfLine.

Variable py : Interpreter.





End PriceOfLine.





(** ** The same identity in capitals *)









(** ** The restaurant listing *)

Lemma restaurant_names :
  spice_route !! "name" = Some (VStr "Spice Route") ∧
  pasta_palace !! "name" = Some (VStr "Pasta Palace").
Proof. split; [unfold spice_route|unfold pasta_palace]; dict_lookup. Qed.

Lemma list_restaurants_run (db : Database) :
  available db →
  list_restaurants (Some db) =
    (Respond (serialize_doc ∘ document <$> take 50 (collection db "restaurant")), Some db).
Proof.
  intros Hf. unfold list_restaurants. apply handler_ok.
  erewrite bind_ok; [|apply fetch_ok; [done|simpl; lia]].
  simpl. unfold mret, ST_ret. do 3 f_equal.
  unfold Store.limited. simpl. f_equal.
  by apply (filter_all_true Store.all).
Qed.

(** X9: on a store that answers, the restaurant listing is the first 50
    restaurants in insertion order, whatever they are: the [n]-th entry is
    the [n]-th stored restaurant with [str] of its identity as [id] and
    every other field as stored; nothing is filtered out and nothing is
    changed in the store. *)
Theorem list_restaurants_first_fifty (db : Database) :
  available db →
  ∃ out : list dict,
    list_restaurants (Some db) = (Respond out, Some db) ∧
    length out = (length (collection db "restaurant") `min` 50)%nat ∧
    ∀ (n : nat) (d : stored),
      (n < 50)%nat → collection db "restaurant" !! n = Some d →
      ∃ e, out !! n = Some e ∧
           e !! "id" = Some (VStr (ObjectId_str (_id d))) ∧
           ∀ k, k ≠ "id" → k ≠ "_id" → e !! k = fields d !! k.
Proof.
  intros Hf. eexists. split; [by apply list_restaurants_run|]. split.
  - rewrite length_fmap, length_take. lia.
  - intros n d Hn Hd. exists (serialize_doc (document d)). split; [|split].
    + rewrite list_lookup_fmap, lookup_take_lt by done. by rewrite Hd.
    + apply serialize_document_id.
    + intros k. apply serialize_document_field.
Qed.

Lemma list_restaurants_first_fifty_witness :
  ∃ (out : list dict) (first last : dict),
    list_restaurants (Some crowded_db) = (Respond out, Some crowded_db) ∧
    length (collection crowded_db "restaurant") = 60%nat ∧
    length out = 50%nat ∧
    out !! 0%nat = Some first ∧
    first !! "id" = Some (VStr "000000000000000000000001") ∧
    out !! 49%nat = Some last ∧
    last !! "id" = Some (VStr "000000000000000000000032") ∧
    last !! "name" = Some (VStr "Spice Route").
Proof.
  destruct (list_restaurants_first_fifty crowded_db eq_refl) as (out & Hl & Hn & Hnth).
  assert (length (collection crowded_db "restaurant") = 60%nat) as Hlen
    by (vm_compute; reflexivity).
  destruct (Hnth 0%nat {| _id := {| binary := be_bytes 12 1 |};
                          fields := spice_route |})
    as (first & Hfirst & Hid1 & _); [lia|vm_compute; reflexivity|].
  destruct (Hnth 49%nat {| _id := {| binary := be_bytes 12 50 |};
                           fields := spice_route |})
    as (last & Hlast & Hid50 & Hfields); [lia|vm_compute; reflexivity|].
  exists out, first, last.
  split; [exact Hl|]. split; [exact Hlen|].
  split; [rewrite Hn, Hlen; reflexivity|].
  split; [exact Hfirst|]. split; [rewrite Hid1; vm_compute; reflexivity|].
  split; [exact Hlast|]. split; [rewrite Hid50; vm_compute; reflexivity|].
  rewrite Hfields by done. simpl. apply restaurant_names.
Defined.

(** ** Seeding, then browsing *)

Lemma be_bytes_succ (len : nat) (n : N) :
  be_bytes (S len) n ≠ be_bytes (S len) (n + 1).
Proof.
  simpl. intros H. apply app_inj_tail in H as [_ H].
  assert (∀ m, (m < 256)%N → ∃ x, Byte.of_N m = Some x ∧ Byte.to_N x = m) as Hb.
  { intros m Hm. destruct (Byte.of_N m) as [x|] eqn:Hx.
    - exists x. split; [done|]. by apply Byte.to_of_N.
    - apply Byte.of_N_None_iff in Hx. lia. }
  destruct (Hb (n mod 256)%N) as (x & Hx & Hxn); [by apply N.mod_lt|].
  destruct (Hb ((n + 1) mod 256)%N) as (y & Hy & Hyn); [by apply N.mod_lt|].
  rewrite Hx, Hy in H. simpl in H. subst y.
  assert ((n + 1) mod 256 = (n mod 256 + 1) mod 256)%N as Hs.
  { rewrite <- N.Div0.add_mod_idemp_l. done. }
  rewrite Hxn in Hyn. rewrite Hs in Hyn.
  pose proof (N.mod_lt n 256 ltac:(done)) as Hlt.
  destruct (decide (n mod 256 + 1 < 256)%N) as [Hsmall|Hbig].
  - rewrite (N.mod_small (n mod 256 + 1)) in Hyn by done. lia.
  - assert (n mod 256 + 1 = 256)%N as He by lia. rewrite He in Hyn.
    rewrite N.Div0.mod_same in Hyn. lia.
Qed.

Lemma next_ObjectId_succ (db : Database) :
  ObjectId_str (next_ObjectId db 0) ≠ ObjectId_str (next_ObjectId db 1).
Proof.
  intros H%ObjectId_str_inj. apply (f_equal binary) in H.
  unfold next_ObjectId in H. cbn [binary] in H.
  rewrite N.add_0_r in H. exact (be_bytes_succ 11 _ H).
Qed.

Lemma menu_item_name rid n d p v s i :
  menu_item rid n d p v s i !! "name" = Some (VStr n).
Proof. unfold menu_item. dict_lookup. Qed.

Lemma seed_menu_of (db : Database) (r1 r2 : ObjectId) :
  ObjectId_str r1 ≠ ObjectId_str r2 →
  filter (menu_of (ObjectId_str r1)) (stored_from db 2 (seed_menu r1 r2))
    = take 2 (stored_from db 2 (seed_menu r1 r2)) ∧
  filter (menu_of (ObjectId_str r2)) (stored_from db 2 (seed_menu r1 r2))
    = drop 2 (stored_from db 2 (seed_menu r1 r2)).
Proof.
  intros Hne. unfold seed_menu. simpl stored_from. simpl take. simpl drop.
  assert (∀ a b n d p v s i o,
            a ≠ b → ¬ menu_of a {| _id := o; fields := menu_item b n d p v s i |}) as Hno.
  { intros a b n d p v s i o Hab. unfold menu_of. simpl.
    rewrite menu_item_restaurant_id. congruence. }
  assert (∀ a n d p v s i o,
            menu_of a {| _id := o; fields := menu_item a n d p v s i |}) as Hyes.
  { intros. unfold menu_of. simpl. apply menu_item_restaurant_id. }
  split.
  - rewrite filter_cons_True by apply Hyes. rewrite filter_cons_True by apply Hyes.
    rewrite filter_cons_False by (apply Hno; exact Hne).
    rewrite filter_cons_False by (apply Hno; exact Hne). reflexivity.
  - rewrite filter_cons_False by (apply Hno; congruence).
    rewrite filter_cons_False by (apply Hno; congruence).
    rewrite filter_cons_True by apply Hyes. rewrite filter_cons_True by apply Hyes.
    reflexivity.
Qed.

Lemma menu_item_one_restaurant (o : ObjectId) rid n d p v l i :
  one_restaurant {| _id := o; fields := menu_item rid n d p v l i |}.
Proof. intros a. simpl. rewrite menu_item_restaurant_id. discriminate. Qed.

Lemma seed_menu_one_restaurant (db : Database) (k : N) (r1 r2 : ObjectId) :
  Forall one_restaurant (stored_from db k (seed_menu r1 r2)).
Proof.
  unfold seed_menu. simpl stored_from.
  repeat (constructor; [apply menu_item_one_restaurant|]). constructor.
Qed.

(** X10: seeding a fresh store and then browsing it.  On a store that
    answers and holds neither restaurants nor menu items, [POST /seed] is
    acknowledged, the restaurant listing then shows Spice Route and Pasta
    Palace under two different [id]s, and the menu asked for under each of
    these [id]s is that restaurant's two dishes, in the order of the
    source. *)
Theorem seed_then_browse (db : Database) :
  available db → collection db "restaurant" = [] → collection db "menuitem" = [] →
  ∃ (db' : Database) (restaurants menu1 menu2 : list dict) (r1 r2 : string),
    seed (Some db) = (Respond ok_ack, Some db') ∧
    list_restaurants (Some db') = (Respond restaurants, Some db') ∧
    (λ e : dict, e !! "id") <$> restaurants = [Some (VStr r1); Some (VStr r2)] ∧
    (λ e : dict, e !! "name") <$> restaurants
      = [Some (VStr "Spice Route"); Some (VStr "Pasta Palace")] ∧
    r1 ≠ r2 ∧
    get_menu r1 (Some db') = (Respond menu1, Some db') ∧
    (λ e : dict, e !! "name") <$> menu1
      = [Some (VStr "Butter Chicken"); Some (VStr "Paneer Tikka")] ∧
    get_menu r2 (Some db') = (Respond menu2, Some db') ∧
    (λ e : dict, e !! "name") <$> menu2
      = [Some (VStr "Margherita Pizza"); Some (VStr "Pesto Pasta")].
Proof.
  intros Hf Hr Hm.
  destruct (seed_body_fresh db Hf Hr) as (db' & Hs & Hf' & Hc1 & Hc2 & _).
  rewrite Hm, app_nil_l in Hc2.
  pose proof (next_ObjectId_succ db) as Hne.
  destruct (seed_menu_of db _ _ Hne) as [Hm1 Hm2].
  destruct restaurant_names as [Hn1 Hn2].
  eexists db', _, _, _, (ObjectId_str (next_ObjectId db 0)), (ObjectId_str (next_ObjectId db 1)).
  split; [unfold seed; by apply handler_ok|].
  split; [by apply list_restaurants_run|].
  rewrite Hc1. simpl take. simpl fmap.
  rewrite !serialize_document_id. simpl.
  split; [reflexivity|].
  rewrite !serialize_document_field by done. simpl.
  split; [by rewrite Hn1, Hn2|].
  split; [exact Hne|].
  split; [apply get_menu_run; [exact Hf'|rewrite Hc2; apply seed_menu_one_restaurant]|].
  rewrite Hc2. rewrite Hm1.
  split.
  { simpl. rewrite !serialize_document_field by done. simpl.
    by rewrite !menu_item_name. }
  split; [apply get_menu_run; [exact Hf'|rewrite Hc2; apply seed_menu_one_restaurant]|].
  rewrite Hc2. rewrite Hm2. simpl.
  rewrite !serialize_document_field by done. simpl.
  by rewrite !menu_item_name.
Qed.

Lemma seed_then_browse_witness :
  ∃ (db' : Database) (menu1 : list dict) (r1 : string),
    seed (Some empty_db) = (Respond ok_ack, Some db') ∧
    get_menu r1 (Some db') = (Respond menu1, Some db') ∧
    (λ e : dict, e !! "name") <$> menu1
      = [Some (VStr "Butter Chicken"); Some (VStr "Paneer Tikka")].
Proof.
  destruct (seed_then_browse empty_db eq_refl eq_refl eq_refl)
    as (db' & rs & menu1 & menu2 & r1 & r2 & Hs & _ & _ & _ & _ & Hg & Hn & _).
  exists db', menu1, r1. split; [exact Hs|]. split; [exact Hg|exact Hn].
Defined.

(** ** Placing an order, then listing the orders *)

Lemma place_order_available (py : Interpreter)
    (payload : PlaceOrderRequest) (db db' : Database) (a : http dict) :
  place_order py payload (Some db) = (a, Some db') →
  available db → available db'.
Proof.
  intros Hp Hf.
  pose proof (grows_handler _ (Some db) (grows_place_order_body py payload)) as Hg.
  fold (place_order py payload) in Hg. rewrite Hp in Hg.
  destruct Hg as (Hfault & _). unfold available. by rewrite Hfault.
Qed.

Lemma sorted_head_newest (l : list stored) (x : stored) :
  (∀ d, d ∈ l → (ObjectId_num (_id d) < ObjectId_num (_id x))%N) →
  ∃ rest, merge_sort Store.id_ge (l ++ [x]) = x :: rest.
Proof.
  intros Hnew.
  pose proof (StronglySorted_merge_sort Store.id_ge (l ++ [x])) as Hs.
  pose proof (merge_sort_Permutation Store.id_ge (l ++ [x])) as Hp.
  destruct (merge_sort Store.id_ge (l ++ [x])) as [|y rest] eqn:Hm.
  - apply Permutation_nil_l in Hp. by destruct l.
  - exists rest. f_equal.
    assert (y ∈ l ++ [x]) as Hy by (rewrite <- Hp; apply list_elem_of_here).
    assert (x ∈ y :: rest) as Hx.
    { rewrite Hp. apply elem_of_app. right. apply list_elem_of_here. }
    apply elem_of_app in Hy as [Hy|Hy%list_elem_of_singleton]; [|done].
    apply elem_of_cons in Hx as [Hx|Hx]; [done|].
    apply StronglySorted_inv in Hs as [_ Hall].
    rewrite Forall_forall in Hall. specialize (Hall x Hx).
    specialize (Hnew y Hy). unfold Store.id_ge, Store.id_le in Hall. lia.
Qed.

(** X11: an order that was placed is in the order listing.  After a
    successful placement on a store that held fewer orders than the limit
    (or with the limit 0), [GET /orders] returns all orders, among them one
    entry with the acknowledged [id] and [total] and the status placed; if
    the new identity is greater than those of the orders before, that entry
    comes first. *)
Theorem placed_order_is_listed (py : Interpreter)
    (payload : PlaceOrderRequest) (db : Database) (h' : option Database)
    (resp : dict) (limit : option Z) :
  let n := default 20 limit in
  place_order py payload (Some db) = (Respond resp, h') →
  0 ≤ n < 2 ^ 63 →
  n = 0 ∨ Z.of_nat (length (collection db "order")) < n →
  ∃ (orders : list dict) (e : dict),
    list_orders limit h' = (Respond orders, h') ∧
    length orders = S (length (collection db "order")) ∧
    e ∈ orders ∧
    e !! "id" = resp !! "id" ∧
    e !! "total" = resp !! "total" ∧
    e !! "status" = Some (VStr "placed") ∧
    ((∀ d, d ∈ collection db "order" →
           (ObjectId_num (_id d) < ObjectId_num (next_ObjectId db 0))%N) →
     head orders = Some e).
Proof.
  intros n Hplace Hn Hroom.
  destruct (place_order_inv _ _ _ _ _ Hplace)
    as (db0 & db' & oids & pm & [= <-] & -> & Hf & _ & _ & -> & Hc & _).
  pose proof (place_order_available _ _ _ _ _ Hplace Hf) as Hf'.
  set (total := Float.sum (line_amount <$> snapshot pm (items payload))) in *.
  set (order := {| _id := next_ObjectId db 0;
                   fields := order_doc payload
                               (line_value <$> snapshot pm (items payload)) total |}) in *.
  pose proof (merge_sort_Permutation Store.id_ge (collection db' "order")) as Hperm.
  assert (length (merge_sort Store.id_ge (collection db' "order"))
          = S (length (collection db "order"))) as Hlen.
  { rewrite Hperm, Hc, length_app. simpl. lia. }
  assert ((if decide (n = 0) then merge_sort Store.id_ge (collection db' "order")
           else take (Z.to_nat n) (merge_sort Store.id_ge (collection db' "order")))
          = merge_sort Store.id_ge (collection db' "order")) as Hall.
  { destruct (decide (n = 0)); [done|]. apply take_ge. lia. }
  exists (serialize_doc ∘ document <$> merge_sort Store.id_ge (collection db' "order")),
         (serialize_doc (document order)).
  split.
  { rewrite (list_orders_run limit db' Hf' Hn). fold n. by rewrite Hall. }
  split; [by rewrite length_fmap|].
  split.
  { apply list_elem_of_fmap. exists order. split; [done|].
    rewrite Hperm, Hc. apply elem_of_app. right. apply list_elem_of_here. }
  destruct (order_ack_fields (next_ObjectId db 0) total) as (-> & -> & _).
  destruct (order_doc_fields payload (line_value <$> snapshot pm (items payload)) total)
    as (_ & Ht & Hs).
  split; [apply serialize_document_id|].
  split; [by rewrite serialize_document_field|].
  split; [by rewrite serialize_document_field|].
  intros Hnew. rewrite Hc.
  destruct (sorted_head_newest (collection db "order") order Hnew) as (rest & ->).
  reflexivity.
Qed.

Lemma placed_order_is_listed_witness :
  let payload := demo_request [ {| menuitem_id := id_A; quantity := 2 |};
                                {| menuitem_id := id_B; quantity := 1 |} ] in
  let out := place_order sample_py payload (Some demo_db) in
  ∃ (orders : list dict) (e : dict),
    list_orders None out.2 = (Respond orders, out.2) ∧
    length orders = 1%nat ∧
    head orders = Some e ∧
    e !! "total" = Some (VFloat (Float.of_Z 25)).
Proof.
  intros payload out.
  assert (out = (Respond (order_ack (next_ObjectId demo_db 0) (Float.of_Z 25)), out.2))
    as Hout by (vm_compute; reflexivity).
  destruct (placed_order_is_listed sample_py payload demo_db out.2 _ None Hout)
    as (orders & e & Hl & Hn & _ & _ & Ht & _ & Hh).
  - simpl. lia.
  - right. vm_compute. reflexivity.
  - exists orders, e. split; [exact Hl|]. split; [exact Hn|].
    split; [|rewrite Ht; apply order_ack_fields].
    apply Hh. intros d Hd.
    assert (collection demo_db "order" = []) as Hnil by (vm_compute; reflexivity).
    rewrite Hnil in Hd. destruct (not_elem_of_nil _ Hd).
Defined.

(** ** Totals that are not negative *)

Lemma ge_zero_not_negative (x : float) :
  Float.leb Float.zero x = true ↔ not_negative x.
Proof.
  destruct x as [s|[]| |[] m e]; simpl; split; try done.
Qed.

Lemma shr_fexp_nonneg (m e : Z) (l : location) :
  0 ≤ m → 0 ≤ shr_m (shr_fexp Float.prec Float.emax m e l).1.
Proof.
  intros Hm.
  pose proof (shr_fexp_bound m e l m Hm) as H.
  destruct (shr_fexp Float.prec Float.emax m e l) as [mrs e'].
  destruct H as [[H _] _]; [|done].
  split; [done|]. apply Z.pow_gt_lin_r; lia.
Qed.

Lemma binary_round_aux_sign (s : bool) (m e : Z) (l : location) :
  0 ≤ m →
  match binary_round_aux Float.prec Float.emax s m e l with
  | S754_zero s' | S754_infinity s' | S754_finite s' _ _ => s' = s
  | S754_nan => False
  end.
Proof.
  intros Hm. unfold binary_round_aux.
  pose proof (shr_fexp_nonneg m e l Hm) as H1.
  destruct (shr_fexp Float.prec Float.emax m e l) as [mrs' e']. simpl in H1.
  pose proof (round_nearest_even_bound (shr_m mrs') (loc_of_shr_record mrs') H1) as Hr.
  pose proof (shr_fexp_nonneg (round_nearest_even (shr_m mrs') (loc_of_shr_record mrs')) e'
                loc_Exact (proj1 Hr)) as H2.
  destruct (shr_fexp Float.prec Float.emax _ e' loc_Exact) as [mrs'' e'']. simpl in H2.
  destruct (shr_m mrs'') as [|p|p]; [done| |lia].
  by destruct (e'' <=? _).
Qed.

Lemma binary_round_sign (s : bool) (m : positive) (e : Z) :
  match binary_round Float.prec Float.emax s m e with
  | S754_zero s' | S754_infinity s' | S754_finite s' _ _ => s' = s
  | S754_nan => False
  end.
Proof.
  unfold binary_round. destruct (shl_align _ _ _) as [mz ez].
  apply binary_round_aux_sign. lia.
Qed.

Lemma not_negative_round_aux (m e : Z) (l : location) :
  0 ≤ m → not_negative (binary_round_aux Float.prec Float.emax false m e l).
Proof.
  intros Hm. pose proof (binary_round_aux_sign false m e l Hm) as H.
  by destruct (binary_round_aux _ _ _ _ _ _).
Qed.

Lemma not_negative_normalize (m e : Z) :
  0 ≤ m → not_negative (binary_normalize Float.prec Float.emax m e false).
Proof.
  intros Hm. destruct m as [|p|p]; simpl; [done| |lia].
  pose proof (binary_round_sign false p e) as H.
  by destruct (binary_round _ _ _ _ _).
Qed.

Lemma not_negative_of_Z (q : Z) : 0 ≤ q → not_negative (Float.of_Z q).
Proof. apply not_negative_normalize. Qed.

Lemma not_negative_mul (x y : float) :
  not_negative x → Float.is_finite x = true →
  not_negative y → Float.is_finite y = true →
  not_negative (Float.mul x y).
Proof.
  destruct x as [sx|sx| |sx mx ex], y as [sy|sy| |sy my ey]; simpl; try done.
  intros -> _ -> _. apply not_negative_round_aux. lia.
Qed.

Lemma not_negative_add (x y : float) :
  not_negative x → not_negative y → not_negative (Float.add x y).
Proof.
  destruct x as [sx|sx| |sx mx ex], y as [sy|sy| |sy my ey]; simpl; try done.
  - by destruct sx, sy.
  - by intros -> ->.
  - intros -> ->. apply not_negative_normalize. simpl. lia.
Qed.

Lemma not_negative_sum (l : list float) (acc : float) :
  not_negative acc → Forall not_negative l → not_negative (foldl Float.add acc l).
Proof.
  intros Ha Hl. revert acc Ha. induction Hl as [|x l Hx _ IH]; intros acc Ha; [done|].
  simpl. apply IH. by apply not_negative_add.
Qed.

Lemma not_negative_div (mx my : positive) (ex ey : Z) :
  not_negative (Float.div (S754_finite false mx ex) (S754_finite false my ey)).
Proof.
  unfold Float.div, SFdiv.
  destruct (SFdiv_core_binary _ _ _ _ _ _) as [[mz ez] lz] eqn:Hd.
  apply not_negative_round_aux.
  unfold SFdiv_core_binary in Hd.
  set (m' := match _ with Z0 => _ | Zpos _ => _ | Zneg _ => _ end) in Hd.
  assert (0 ≤ m') as Hm'.
  { unfold m'. destruct (_ - _ - _) as [|k|k]; [lia| |lia].
    apply Z.shiftl_nonneg. lia. }
  pose proof (Z.div_pos m' (Zpos my) Hm' ltac:(lia)) as Hq.
  unfold Z.div in Hq.
  destruct (Z.div_eucl m' (Zpos my)) as [q r]. injection Hd as <- _ _. exact Hq.
Qed.

Lemma not_negative_round (x : float) (n : N) :
  not_negative x → not_negative (Float.round x n).
Proof.
  destruct x as [s|s| |s m e]; simpl; try done.
  intros ->. destruct (match e with Z0 => _ | Zpos _ => _ | Zneg _ => _ end) as [|q|q];
    [done| |done].
  apply not_negative_div.
Qed.

Lemma place_order_quantities_finite (py : Interpreter)
    (payload : PlaceOrderRequest) (db : Database) (h' : option Database) (resp : dict) :
  place_order py payload (Some db) = (Respond resp, h') →
  Forall (λ i, Float.is_finite (Float.of_Z (quantity i)) = true) (items payload).
Proof.
  unfold place_order.
  intros (db0 & db' & [= <-] & -> & Hb)%handler_respond_inv.
  rewrite place_order_body_unfold in Hb.
  destruct (traverse _ _) as [oids|e]; [|done].
  destruct (fault db) as [msg|]; [done|].
  destruct (price_map_of _ _ _) as [pm|e]; [|done].
  destruct (order_loop_cases pm (items payload) Float.zero []) as [[Hall _]|[_ Hl]].
  - exact Hall.
  - rewrite Hl in Hb. done.
Qed.

Lemma priced_lines_not_negative (py : Interpreter)
    (docs : list stored) (pm : gmap string float) (its : list CartItem) :
  price_map_of py docs ∅ = Ok pm →
  Forall (λ d, ∃ p, py_float py (default (VInt 0) (fields d !! "price")) = Ok p ∧
                    schemas.Menuitem_price p = true ∧ Float.is_finite p = true) docs →
  Forall (λ i, 0 ≤ quantity i) its →
  Forall (λ i, Float.is_finite (Float.of_Z (quantity i)) = true) its →
  schemas.Order_total (Some (lines_total (snapshot pm its))) = true.
Proof.
  intros Hpm Hprices Hq Hfin.
  simpl. unfold schemas.ge, lines_total. apply ge_zero_not_negative, not_negative_round.
  apply not_negative_sum; [done|].
  apply Forall_fmap, Forall_fmap, Forall_forall. intros i Hi. simpl.
  rewrite Forall_forall in Hq, Hfin.
  unfold line_amount. simpl.
  assert (not_negative (default Float.zero (pm !! menuitem_id i)) ∧
          Float.is_finite (default Float.zero (pm !! menuitem_id i)) = true) as [Hp1 Hp2].
  { destruct (pm !! menuitem_id i) as [p|] eqn:Hp; [|done]. simpl.
    destruct (price_map_of_lookup _ _ _ _ _ _ Hpm Hp) as [He|(d & Hd & _ & Hpf)].
    - by rewrite lookup_empty in He.
    - rewrite Forall_forall in Hprices.
      destruct (Hprices d Hd) as (p' & Hpf' & Hge & Hfp).
      rewrite Hpf in Hpf'. injection Hpf' as <-.
      split; [by apply ge_zero_not_negative|exact Hfp]. }
  apply not_negative_mul; [exact Hp1|exact Hp2| |].
  - apply not_negative_of_Z. by apply Hq.
  - by apply Hfin.
Qed.

(** X12: with quantities that are not negative and menu prices that are
    finite and within the bound [ge=0] of [Menuitem.price], a successful
    placement acknowledges and persists a total within the bound [ge=0] of
    [Order.total] -- whatever rounding and overflow do to the sum. *)
Theorem nonnegative_quantities_nonnegative_total (py : Interpreter)
    (payload : PlaceOrderRequest) (db : Database) (h' : option Database) (resp : dict) :
  place_order py payload (Some db) = (Respond resp, h') →
  Forall (λ i, 0 ≤ quantity i) (items payload) →
  Forall (λ d, ∃ p, py_float py (default (VInt 0) (fields d !! "price")) = Ok p ∧
                    schemas.Menuitem_price p = true ∧ Float.is_finite p = true)
         (collection db "menuitem") →
  ∃ (total : float) (order : stored),
    resp !! "total" = Some (VFloat total) ∧
    last_order h' = Some order ∧
    fields order !! "total" = Some (VFloat total) ∧
    schemas.Order_total (Some total) = true.
Proof.
  intros Hplace Hq Hprices.
  pose proof (place_order_quantities_finite _ _ _ _ _ Hplace) as Hfin.
  destruct (place_order_inv _ _ _ _ _ Hplace)
    as (db0 & db' & oids & pm & [= <-] & -> & _ & _ & Hpm & -> & Hc & _).
  eexists (lines_total (snapshot pm (items payload))), _.
  split; [apply order_ack_fields|].
  split; [simpl; rewrite Hc; apply last_snoc|].
  split; [simpl; apply order_doc_fields|].
  apply (priced_lines_not_negative py (menu_docs_for oids db)); try done.
  apply Forall_forall. intros d [_ Hd]%list_elem_of_filter.
  rewrite Forall_forall in Hprices. by apply Hprices.
Qed.

Lemma nonnegative_quantities_nonnegative_total_witness :
  let payload := demo_request [ {| menuitem_id := id_A; quantity := 2 |};
                                {| menuitem_id := id_B; quantity := 1 |} ] in
  let out := place_order sample_py payload (Some demo_db) in
  ∃ total : float,
    order_ack (next_ObjectId demo_db 0) (Float.of_Z 25) !! "total" = Some (VFloat total) ∧
    schemas.Order_total (Some total) = true.
Proof.
  intros payload out.
  assert (out = (Respond (order_ack (next_ObjectId demo_db 0) (Float.of_Z 25)), out.2))
    as Hout by (vm_compute; reflexivity).
  destruct (nonnegative_quantities_nonnegative_total sample_py payload demo_db
              out.2 _ Hout) as (total & order & Ht & _ & _ & Hb).
  - constructor; [|constructor; [|constructor]]; simpl; lia.
  - constructor; [|constructor; [|constructor]]; eexists;
      (split; [|split]); vm_compute; reflexivity.
  - exists total. split; [exact Ht|exact Hb].
Defined.

(** ** The catalogue stays within the schema bounds *)

Lemma insert_one_others (coll coll' : string) (doc : dict) (db : Database) :
  coll ≠ coll' → collection (Store.insert_one coll doc db).2 coll' = collection db coll'.
Proof.
  intros Hne.
  destruct (insert_one_cases coll doc db) as [(e & db' & -> & Hc)|(db' & -> & _ & _ & _ & Hx)].
  - simpl. unfold collection. by rewrite Hc.
  - simpl. by apply Hx.
Qed.

Lemma place_order_others (py : Interpreter)
    (payload : PlaceOrderRequest) (db : Database) (coll : string) :
  "order" ≠ coll →
  collection (place_order_body py payload db).2 coll = collection db coll.
Proof.
  intros Hne. rewrite place_order_body_unfold.
  destruct (traverse _ _) as [oids|e]; [|done].
  destruct (fault db) as [msg|]; [done|].
  destruct (price_map_of _ _ _) as [pm|e]; [|done].
  destruct (order_loop _ _ _ _) as [[total its]|e]; [|done].
  pose proof (insert_one_others "order" coll (order_doc payload its total) db Hne) as Hi.
  unfold mbind, ST_bind.
  destruct (Store.insert_one "order" (order_doc payload its total) db) as [[oid|e] db'];
    exact Hi.
Qed.

Lemma seed_body_store (db : Database) :
  (seed_body db).2 = db ∨
  collection (seed_body db).2 "restaurant" =
    [ {| _id := next_ObjectId db 0; fields := spice_route |};
      {| _id := next_ObjectId db 1; fields := pasta_palace |} ] ∧
  collection (seed_body db).2 "menuitem" =
    collection db "menuitem" ++
      stored_from db 2 (seed_menu (next_ObjectId db 0) (next_ObjectId db 1)).
Proof.
  destruct (fault db) as [msg|] eqn:Hf.
  - left. by rewrite (seed_body_fault db msg Hf).
  - destruct (decide (collection db "restaurant" = [])) as [Hr|Hr].
    + right. destruct (seed_body_fresh db Hf Hr) as (db' & -> & _ & Hc1 & Hc2 & _).
      split; [exact Hc1|exact Hc2].
    + left. by rewrite (seed_body_populated db Hf Hr).
Qed.

Lemma seed_restaurants_in_bounds (o : ObjectId) :
  restaurant_in_bounds {| _id := o; fields := spice_route |} ∧
  restaurant_in_bounds {| _id := o; fields := pasta_palace |}.
Proof.
  split.
  - exists (Float.lit 46 10), 30. simpl. unfold spice_route.
    split; [dict_lookup|]. split; [vm_compute; reflexivity|].
    split; [dict_lookup|reflexivity].
  - exists (Float.lit 44 10), 25. simpl. unfold pasta_palace.
    split; [dict_lookup|]. split; [vm_compute; reflexivity|].
    split; [dict_lookup|reflexivity].
Qed.

Lemma menu_item_in_bounds (o : ObjectId) rid n d (p : float) v (l : Z) i :
  schemas.Menuitem_price p = true → Float.is_finite p = true →
  schemas.Menuitem_spicy_level (Some l) = true →
  menuitem_in_bounds {| _id := o; fields := menu_item rid n d p v l i |}.
Proof.
  intros Hp Hf Hl. exists p, l. simpl. unfold menu_item.
  split; [dict_lookup|]. split; [exact Hp|]. split; [exact Hf|].
  split; [dict_lookup|exact Hl].
Qed.

Lemma seed_menu_in_bounds (db : Database) (k : N) (r1 r2 : ObjectId) :
  Forall menuitem_in_bounds (stored_from db k (seed_menu r1 r2)).
Proof.
  unfold seed_menu. simpl stored_from.
  repeat (constructor; [apply menu_item_in_bounds; vm_compute; reflexivity|]).
  constructor.
Qed.

Lemma serve_keeps_bounds (py : Interpreter)
    (env : gmap string string) (r : request) (h : option Database) :
  catalogue_in_bounds h → catalogue_in_bounds (serve py env r h).2.
Proof.
  intros Hb. destruct (is_read r) eqn:Hr.
  - by rewrite read_routes_leave_store.
  - destruct h as [db|]; [|by destruct r as [| | |rid|payload|limit|]]. destruct Hb as [Hb1 Hb2].
    destruct r as [| | |rid|payload|limit|]; try done; unfold serve.
    + unfold seed, handler.
      pose proof (seed_body_store db) as Hs.
      destruct (seed_body db) as [a db']. simpl in *.
      destruct Hs as [->|[Hc1 Hc2]]; [by split|].
      rewrite Hc1, Hc2. split.
      * constructor; [apply seed_restaurants_in_bounds|].
        constructor; [apply seed_restaurants_in_bounds|constructor].
      * apply Forall_app. split; [exact Hb2|apply seed_menu_in_bounds].
    + unfold place_order, handler.
      pose proof (place_order_others py payload db "restaurant" ltac:(done)) as H1.
      pose proof (place_order_others py payload db "menuitem" ltac:(done)) as H2.
      destruct (place_order_body py payload db) as [a db']. simpl in *.
      rewrite H1, H2. by split.
Qed.

Lemma run_keeps_bounds (py : Interpreter)
    (env : gmap string string) (rs : list request) (h : option Database) :
  catalogue_in_bounds h → catalogue_in_bounds (run py env rs h).
Proof.
  revert h. induction rs as [|r rs IH]; intros h Hb; [exact Hb|].
  simpl. apply IH. by apply serve_keeps_bounds.
Qed.

(** X13: the bounds that [schemas.py] declares are never checked by a
    handler, yet for restaurants and menu items they are an invariant of
    the service: if every stored restaurant and menu item is within bounds
    (rating 0 to 5, delivery time 5 to 120, price at least 0 and finite,
    spicy level 0 to 3), this still holds after any sequence of requests --
    the only documents added to these collections are the seed data, which
    conform. *)
Theorem catalogue_stays_in_bounds (py : Interpreter)
    (env : gmap string string) (rs : list request) (h : option Database) :
  catalogue_in_bounds h → catalogue_in_bounds (run py env rs h).
Proof.
  revert h. induction rs as [|r rs IH]; intros h Hb; [exact Hb|].
  simpl. apply IH. by apply serve_keeps_bounds.
Qed.

Lemma catalogue_stays_in_bounds_witness :
  catalogue_in_bounds
    (run sample_py ∅
       [POST_seed; POST_orders (demo_request [ {| menuitem_id := id_A; quantity := -1 |} ]);
        GET_orders None; POST_seed]
       (Some empty_db)).
Proof.
  apply catalogue_stays_in_bounds. split; constructor.
Defined.

Lemma serve_keeps_menu (py : Interpreter)
    (env : gmap string string) (r : request) (h : option Database) :
  plain_menu h → plain_menu (serve py env r h).2.
Proof.
  intros Hb. destruct (is_read r) eqn:Hr.
  - by rewrite read_routes_leave_store.
  - destruct h as [db|]; [|by destruct r as [| | |rid|payload|limit|]].
    destruct r as [| | |rid|payload|limit|]; try done; unfold serve.
    + unfold seed, handler.
      pose proof (seed_body_store db) as Hs.
      destruct (seed_body db) as [a db']. simpl in *.
      destruct Hs as [->|[_ Hc2]]; [done|].
      rewrite Hc2. apply Forall_app. split; [exact Hb|apply seed_menu_one_restaurant].
    + unfold place_order, handler.
      pose proof (place_order_others py payload db "menuitem" ltac:(done)) as H2.
      destruct (place_order_body py payload db) as [a db']. simpl in *.
      by rewrite H2.
Qed.

(** X18: the menu items that this service stores name one restaurant
    each: from a store whose menu items do (an empty store, say), after any
    sequence of requests, they still do, and so menu retrieval on the store
    reached, when it answers, returns exactly the first 200 menu items whose
    [restaurant_id] is the requested string. *)
Theorem menu_of_served_store (py : Interpreter) (env : gmap string string)
    (rs : list request) (h : option Database) (db : Database) (rid : string) :
  plain_menu h →
  run py env rs h = Some db →
  available db →
  Forall one_restaurant (collection db "menuitem") ∧
  get_menu rid (Some db) =
    (Respond (serialize_doc ∘ document <$>
                take 200 (filter (menu_of rid) (collection db "menuitem"))),
     Some db).
Proof.
  intros Hb Hrun Hf.
  assert (plain_menu (run py env rs h)) as Hplain.
  { clear Hrun. revert h Hb. induction rs as [|r rs IH]; intros h Hb; [exact Hb|].
    simpl. apply IH. by apply serve_keeps_menu. }
  rewrite Hrun in Hplain. split; [exact Hplain|]. by apply get_menu_run.
Qed.

Lemma menu_of_served_store_witness :
  ∃ (db : Database) (out : list dict),
    run sample_py ∅ [POST_seed; GET_restaurants] (Some empty_db) = Some db ∧
    get_menu "000000000000000000000000" (Some db) = (Respond out, Some db) ∧
    length out = 2%nat.
Proof.
  destruct (seed_body_fresh empty_db eq_refl eq_refl) as (db & Hs & Hf & _ & Hc2 & _).
  assert (run sample_py ∅ [POST_seed; GET_restaurants] (Some empty_db) = Some db) as Hrun.
  { unfold run. cbn [foldl]. rewrite read_routes_leave_store by done.
    unfold serve, seed, handler. by rewrite Hs. }
  assert (plain_menu (Some empty_db)) as Hplain by constructor.
  destruct (menu_of_served_store sample_py ∅ _ (Some empty_db) db
              "000000000000000000000000" Hplain Hrun Hf) as [_ Hg].
  eexists db, _. split; [exact Hrun|]. split; [exact Hg|].
  rewrite Hc2. vm_compute. reflexivity.
Defined.

(** X14: the two together.  Whatever requests were served before, on a
    catalogue that was within bounds to begin with (an empty store, say), a
    successful placement with quantities that are not negative acknowledges
    a total within the bound [ge=0] of [Order.total]. *)
Theorem service_total_within_bound (py : Interpreter)
    (env : gmap string string) (rs : list request) (h h' : option Database)
    (payload : PlaceOrderRequest) (resp : dict) :
  catalogue_in_bounds h →
  place_order py payload (run py env rs h) = (Respond resp, h') →
  Forall (λ i, 0 ≤ quantity i) (items payload) →
  ∃ total : float,
    resp !! "total" = Some (VFloat total) ∧ schemas.Order_total (Some total) = true.
Proof.
  intros Hb Hplace Hq.
  apply (run_keeps_bounds py env rs) in Hb.
  pose proof (place_order_inv _ _ _ _ _ Hplace)
    as (db & db' & oids & pm & Hrun & -> & _ & _ & Hpm & -> & _ & _).
  rewrite Hrun in Hb, Hplace. destruct Hb as [_ Hb].
  pose proof (place_order_quantities_finite _ _ _ _ _ Hplace) as Hfin.
  exists (lines_total (snapshot pm (items payload))).
  split; [apply order_ack_fields|].
  apply (priced_lines_not_negative py (menu_docs_for oids db)); try done.
  apply Forall_forall. intros d [_ Hd]%list_elem_of_filter.
  rewrite Forall_forall in Hb.
  destruct (Hb d Hd) as (p & l & Hp & Hge & Hfp & _).
  exists p. rewrite Hp. done.
Qed.

Lemma service_total_within_bound_witness :
  let payload := demo_request [ {| menuitem_id := "000000000000000000000002";
                                   quantity := 3 |} ] in
  let h := run sample_py ∅ [POST_seed] (Some empty_db) in
  let out := place_order sample_py payload h in
  let ack := order_ack (next_ObjectId empty_db 6) (Float.lit 4197 100) in
  out.1 = Respond ack ∧
  ∃ total : float,
    ack !! "total" = Some (VFloat total) ∧ schemas.Order_total (Some total) = true.
Proof.
  intros payload h out ack.
  assert (out = (Respond ack, out.2)) as Hout by (vm_compute; reflexivity).
  split; [by rewrite Hout|].
  apply (service_total_within_bound sample_py ∅ [POST_seed] (Some empty_db) out.2
           payload _).
  - split; constructor.
  - exact Hout.
  - constructor; [simpl; lia|constructor].
Defined.

(** ** What an order is priced by *)

Lemma order_doc_encodable_items (payload : PlaceOrderRequest) (its : list value)
    (total : float) :
  bson_encodable (VDict (order_doc payload its total)) = forallb bson_encodable its.
Proof.
  destruct (forallb bson_encodable its) eqn:Hits.
  - unfold order_doc. apply dict_of_encodable.
    repeat constructor; simpl; try done. by destruct (notes payload).
  - apply not_true_is_false. intros He. apply dict_encodable in He.
    destruct (order_doc_fields payload its total) as (Hitems & _).
    apply (He _ _) in Hitems. simpl in Hitems. congruence.
Qed.

Lemma insert_one_result (coll : string) (doc : dict) (db : Database) :
  (Store.insert_one coll doc db).1 =
    match fault db with
    | Some msg => Raise (PyMongoError msg)
    | None =>
        if bson_encodable (VDict doc) then Ok (next_ObjectId db 0)
        else Raise (OverflowError "MongoDB can only handle up to 8-byte ints")
    end.
Proof.
  unfold Store.insert_one.
  destruct (new_ObjectId_run db) as (db1 & Hn & Hf1 & _ & _).
  erewrite bind_ok by exact Hn.
  unfold Store.round_trip, Store.encode, Store.append, lift, get, put.
  unfold mbind, ST_bind, mret, ST_ret. rewrite Hf1.
  destruct (fault db); [done|]. by destruct (bson_encodable (VDict doc)).
Qed.

(** X15: an order is priced by its items alone.  The restaurant named in
    the request, the customer's name, address, phone and notes are stored
    but never checked or used: two requests with the same items get the
    same answer -- acknowledgment or error -- from the same store, so items
    of another restaurant, or of several, are priced as usual. *)
Theorem order_priced_by_items_alone (py : Interpreter)
    (payload payload' : PlaceOrderRequest) (h : option Database) :
  items payload = items payload' →
  (place_order py payload h).1 = (place_order py payload' h).1.
Proof.
  intros Hi. destruct h as [db|]; [|done].
  unfold place_order, handler.
  rewrite !place_order_body_unfold, <- Hi.
  destruct (traverse _ _) as [oids|e]; [|done].
  destruct (fault db) as [msg|] eqn:Hf; [done|].
  destruct (price_map_of _ _ _) as [pm|e]; [|done].
  destruct (order_loop _ _ _ _) as [[total its]|e]; [|done].
  pose proof (insert_one_result "order" (order_doc payload its total) db) as H1.
  pose proof (insert_one_result "order" (order_doc payload' its total) db) as H2.
  rewrite Hf, order_doc_encodable_items in H1, H2.
  unfold mbind, ST_bind.
  destruct (Store.insert_one "order" (order_doc payload its total) db) as [r1 db1].
  destruct (Store.insert_one "order" (order_doc payload' its total) db) as [r2 db2].
  simpl in H1, H2. subst r1 r2.
  by destruct (forallb bson_encodable its).
Qed.

Lemma order_priced_by_items_alone_witness :
  let its := [ {| menuitem_id := id_A; quantity := 2 |} ] in
  let payload' := {| restaurant_id := "another restaurant"; items := its;
                     customer_name := ""; address := ""; phone := "";
                     notes := Some "ring twice" |} in
  (place_order sample_py (demo_request its) (Some demo_db)).1
  = (place_order sample_py payload' (Some demo_db)).1.
Proof.
  intros its payload'.
  apply (order_priced_by_items_alone sample_py (demo_request its) payload'
           (Some demo_db)).
  reflexivity.
Defined.

(** ** The diagnostic route and the environment *)

(** X16: in the diagnostic report the fields [database_url] and
    [database_name] tell only whether the environment variables
    [DATABASE_URL] and [DATABASE_NAME] are set to a non-empty string: what
    the handler wrote there before -- the name of the store among it -- is
    overwritten, so the two fields are the same with and without a store. *)
Theorem test_database_reports_environment (env : gmap string string)
    (h : option Database) :
  ∃ resp : dict,
    test_database env h = Ok resp ∧
    resp !! "database_url" =
      Some (VStr (if getenv_true env "DATABASE_URL" then "✅ Set" else "❌ Not Set")) ∧
    resp !! "database_name" =
      Some (VStr (if getenv_true env "DATABASE_NAME" then "✅ Set" else "❌ Not Set")).
Proof.
  unfold test_database.
  destruct h as [db|].
  - pose proof (list_collection_names_cases db) as Hl.
    destruct (fault db) as [msg|].
    + unfold try_except, setitem, lift, mbind at 1 2 3 4 5, ST_bind. simpl.
      rewrite Hl. simpl. eexists. split; [reflexivity|].
      split; dict_lookup.
    + destruct Hl as [names Hl].
      unfold try_except, setitem, lift, mbind at 1 2 3 4 5, ST_bind. simpl.
      rewrite Hl. simpl. eexists. split; [reflexivity|].
      split; dict_lookup.
  - unfold try_except, setitem. simpl. eexists. split; [reflexivity|].
    split; dict_lookup.
Qed.

(** ** The failure text in the diagnostic report *)

Lemma str_prefix_spec (n : nat) (s : string) :
  ∃ rest : string,
    s = str_prefix n s +:+ rest ∧
    len (str_prefix n s) = (n `min` len s)%nat ∧
    match rest with
    | String c _ => is_continuation c = false
    | "" => True
    end.
Proof.
  revert n. induction s as [|c s IH]; intros n.
  - exists "". simpl. split; [done|]. split; [lia|done].
  - cbn [str_prefix len]. destruct (is_continuation c) eqn:Hc.
    + destruct (IH n) as (rest & Hs & Hl & Hr). exists rest.
      cbn [len]. rewrite Hc. split; [|split; [exact Hl|exact Hr]].
      change (String c s = String c (str_prefix n s +:+ rest)). by f_equal.
    + destruct n as [|n].
      * exists (String c s). split; [done|]. split; [done|exact Hc].
      * destruct (IH n) as (rest & Hs & Hl & Hr). exists rest.
        cbn [len]. rewrite Hc. split; [|split; [lia|exact Hr]].
        change (String c s = String c (str_prefix n s +:+ rest)). by f_equal.
Qed.

(** X19: the failure text in the diagnostic report is cut by characters,
    not by bytes.  When the store fails with the text [msg], the report's
    [database] field ends with a prefix of [msg] of 50 characters (all of
    [msg] when it has fewer), and what is cut off begins at a character:
    no character of more than one byte is torn apart. *)
Theorem diagnostic_cut_counts_characters (env : gmap string string)
    (db : Database) (msg : string) :
  fault db = Some msg →
  ∃ (resp : dict) (rest : string),
    let cut := str_prefix 50 msg in
    test_database env (Some db) = Ok resp ∧
    resp !! "database" = Some (VStr ("⚠️  Connected but Error: " +:+ cut)) ∧
    msg = cut +:+ rest ∧
    len cut = (50 `min` len msg)%nat ∧
    match rest with
    | String c _ => is_continuation c = false
    | "" => True
    end.
Proof.
  intros Hf.
  destruct (str_prefix_spec 50 msg) as (rest & Hs & Hl & Hr).
  pose proof (list_collection_names_cases db) as Hnames. rewrite Hf in Hnames.
  eexists _, rest.
  split; [|split; [|split; [exact Hs|split; [exact Hl|exact Hr]]]].
  - unfold test_database.
    unfold try_except, setitem, lift, mbind at 1 2 3 4 5, ST_bind. simpl.
    rewrite Hnames. simpl. reflexivity.
  - dict_lookup.
Qed.

Lemma diagnostic_cut_counts_characters_witness :
  ∃ resp : dict,
    test_database ∅ (Some garbled_db) = Ok resp ∧
    resp !! "database" = Some (VStr ("⚠️  Connected but Error: " +:+ accents 50)) ∧
    String.length (accents 50) = 100%nat.
Proof.
  destruct (diagnostic_cut_counts_characters ∅ garbled_db (accents 51) eq_refl)
    as (resp & rest & Ht & Hd & _).
  exists resp. split; [exact Ht|]. split; [|reflexivity].
  rewrite Hd. reflexivity.
Defined.

(** ** A placement that fails *)

Lemma place_order_raise (py : Interpreter)
    (payload : PlaceOrderRequest) (db : Database) (h' : option Database)
    (status_code : Z) (detail : string) :
  place_order py payload (Some db) = (HTTPException status_code detail, h') →
  status_code = 500 ∧
  ∃ db', h' = Some db' ∧ collections db' = collections db ∧
         fault db' = fault db ∧ name db' = name db.
Proof.
  unfold place_order, handler. intros Hp.
  pose proof (grows_place_order_body py payload db) as (Hfault & Hname & _).
  destruct (place_order_body py payload db) as [r db'] eqn:Hb.
  simpl in Hfault, Hname.
  destruct r as [a|e]; [done|]. simpl in Hp. injection Hp as <- _ <-.
  split; [done|]. exists db'. split; [done|]. split; [|by split].
  rewrite place_order_body_unfold in Hb.
  destruct (traverse _ _) as [oids|e0]; [|by injection Hb as _ <-].
  destruct (fault db) as [msg|]; [by injection Hb as _ <-|].
  destruct (price_map_of _ _ _) as [pm|e0]; [|by injection Hb as _ <-].
  destruct (order_loop _ _ _ _) as [[total its]|e0]; [|by injection Hb as _ <-].
  destruct (insert_one_cases "order" (order_doc payload its total) db)
    as [(e1 & db1 & Hi & Hc)|(db1 & Hi & _)].
  - erewrite bind_raise in Hb by exact Hi. by injection Hb as _ <-.
  - erewrite bind_ok in Hb by exact Hi. done.
Qed.

Lemma dict_renderable (d : dict) :
  renderable (VDict d) = true ↔
  map_Forall (λ k v, left_out k = true ∨ renderable v = true) d.
Proof.
  simpl.
  apply (map_fold_weak_ind
           (λ r m, r = true ↔
                   map_Forall (λ k v, left_out k = true ∨ renderable v = true) m)).
  - split; [intros _; apply map_Forall_empty|done].
  - intros k v m r Hk IH. rewrite andb_true_iff, orb_true_iff, IH.
    by rewrite map_Forall_insert.
Qed.

Lemma order_ack_renderable (order_id : ObjectId) (total : float) :
  renderable (VDict (order_ack order_id total)) = Float.is_finite (Float.round total 2).
Proof.
  destruct (Float.is_finite (Float.round total 2)) eqn:Hfin.
  - apply dict_renderable. unfold order_ack, dict_of. simpl.
    repeat apply map_Forall_insert_2;
      first [right; exact Hfin|right; reflexivity|apply map_Forall_empty].
  - apply not_true_is_false. intros Hr. apply dict_renderable in Hr.
    destruct (order_ack_fields order_id total) as (_ & Ht & _).
    apply (Hr _ _) in Ht. simpl in Ht. destruct Ht; congruence.
Qed.

(** X17: what a placement that fails leaves behind.  A placement answered
    with an error detail -- the [HTTPException] of the handler, always a
    500 -- has stored nothing: every collection is as before.  A placement
    answered with the plain 500 of the framework has stored its order: this
    happens when the total is not finite, so that the acknowledgment cannot
    be written as JSON after the handler has returned.  An acknowledged
    placement has stored its order with a finite total. *)
Theorem failed_order_and_the_store (py : Interpreter) (env : gmap string string)
    (payload : PlaceOrderRequest) (db : Database) (a : answer) (h' : option Database) :
  serve py env (POST_orders payload) (Some db) = (a, h') →
  ∃ db', h' = Some db' ∧
    match a with
    | Error status_code detail =>
        status_code = 500 ∧ collections db' = collections db
    | Internal_Server_Error =>
        ∃ (order : stored) (total : float),
          collection db' "order" = collection db "order" ++ [order] ∧
          fields order !! "total" = Some (VFloat total) ∧
          Float.is_finite total = false
    | OK_200 result =>
        ∃ (order : stored) (total : float),
          collection db' "order" = collection db "order" ++ [order] ∧
          fields order !! "total" = Some (VFloat total) ∧
          Float.is_finite total = true
    end.
Proof.
  unfold serve.
  destruct (place_order py payload (Some db)) as [r h1] eqn:Hp.
  intros [= <- <-]. destruct r as [resp|status_code detail].
  - destruct (place_order_inv _ _ _ _ _ Hp)
      as (db0 & db' & oids & pm & [= <-] & -> & _ & _ & _ & -> & Hc & _).
    exists db'. split; [done|].
    set (total := Float.sum (line_amount <$> snapshot pm (items payload))) in *.
    destruct (order_doc_fields payload (line_value <$> snapshot pm (items payload)) total)
      as (_ & Ht & _).
    unfold http_map, respond, body_renderable. rewrite order_ack_renderable.
    destruct (Float.is_finite (Float.round total 2)) eqn:Hfin;
      eexists _, (Float.round total 2);
      (split; [exact Hc|split; [exact Ht|exact Hfin]]).
  - destruct (place_order_raise _ _ _ _ _ _ Hp) as (-> & db' & -> & Hc & _).
    exists db'. simpl. done.
Qed.

Lemma failed_order_and_the_store_witness :
  let request := POST_orders (demo_request [ {| menuitem_id := id_A; quantity := 10 |} ]) in
  let out := serve sample_py ∅ request (Some costly_db) in
  out.1 = Internal_Server_Error ∧
  ∃ (db' : Database) (order : stored),
    out.2 = Some db' ∧ collection db' "order" = [order] ∧
    fields order !! "total" = Some (VFloat (S754_infinity false)).
Proof.
  intros request out.
  assert (out = (Internal_Server_Error, out.2)) as Hout by (vm_compute; reflexivity).
  split; [by rewrite Hout|].
  destruct (failed_order_and_the_store sample_py ∅ _ costly_db _ _ Hout)
    as (db' & Hh & order & total & Hc & Ht & _).
  exists db', order. split; [exact Hh|]. split; [exact Hc|].
  assert ((o ← last_order out.2; fields o !! "total") = Some (VFloat (S754_infinity false)))
    as Hlast by (vm_compute; reflexivity).
  rewrite Hh in Hlast. simpl in Hlast. rewrite Hc in Hlast. simpl in Hlast.
  exact Hlast.
Defined.
